(** * The hybrid retrieval core of [src/advanced-agentic-rag.js]

    A shallow embedding of the classes [VectorStore] and
    [AdvancedKnowledgeBase]: [vectorize], [cosineSimilarity], [vectorSearch],
    [keywordSearch] and [hybridRetrieval], together with the part of the
    JavaScript built-ins those five methods call.

    Conventions.
    - A JavaScript string is a [string]: one [ascii] per UTF-16 code unit, for
      strings whose code units are all below 256 (ASCII and Latin-1).
    - A JavaScript Number is a binary64 [float]; integer counts that the source
      only ever increments are kept as [nat] and converted where the source
      does arithmetic on them.
    - An object used as a dictionary is the ordered list of its own enumerable
      properties; a [Map] is the ordered list of its entries.
    - A method that can throw returns an [outcome].
    - [new RegExp] and [String.prototype.match] are reached through the
      interface [RegExp.engine].  What holds of the searches whatever a
      pattern matches is stated for every engine; what depends on the
      matching is stated for the fragment of regular expressions embedded
      in [RegExp]. *)

From Stdlib Require Import String Ascii List Arith Bool Lia ZArith.
From Stdlib Require Import Permutation Sorted.
From Stdlib Require Import Floats.PrimFloat Floats.FloatAxioms.
From Stdlib Require Uint63.
Import ListNotations.

Local Open Scope string_scope.
Local Open Scope list_scope.
Local Open Scope nat_scope.

(* The weights 0.6 and 0.4 of the source are read as their nearest binary64
   values, as JavaScript reads them. *)
#[local] Set Warnings "-inexact-float".

(* ------------------------------------------------------------------ *)
(** ** Outcomes of a call *)

Inductive exception := SyntaxError.

(** [Returns a]: the call returns [a].  [Throws e]: it throws [e].
    [Unmodelled]: the regular-expression engine at hand has no answer for a
    pattern the call passes to it.  [new RegExp] itself always returns or
    throws; the fragment of [RegExp] embedded below has no answer outside
    its grammar. *)
Inductive outcome (A : Type) : Type :=
| Returns (a : A)
| Throws (e : exception)
| Unmodelled.

Arguments Returns {A} a.
Arguments Throws {A} e.
Arguments Unmodelled {A}.

Definition bind {A B : Type} (m : outcome A) (k : A -> outcome B) : outcome B :=
  match m with
  | Returns a => k a
  | Throws e => Throws e
  | Unmodelled => Unmodelled
  end.

Notation "x <- m ;; k" := (bind m (fun x => k))
  (at level 61, m at next level, right associativity).

(** A [for ... of] loop whose body can throw: the accumulator is threaded
    through the iterations and the first exception ends the loop. *)
Fixpoint for_of {A S : Type} (body : S -> A -> outcome S) (l : list A) (s : S)
  : outcome S :=
  match l with
  | [] => Returns s
  | a :: l' => s' <- body s a ;; for_of body l' s'
  end.

(* ------------------------------------------------------------------ *)
(** ** Strings *)

Module JSString.

Definition code (c : ascii) : nat := nat_of_ascii c.

Definition between (lo hi n : nat) : bool := (lo <=? n) && (n <=? hi).

(** [String.prototype.toLowerCase] on code units below 256: A-Z, and the
    Latin-1 capitals U+00C0..U+00DE except the multiplication sign U+00D7,
    move up by 32. *)
Definition lower (c : ascii) : ascii :=
  let n := code c in
  if between 65 90 n || (between 192 222 n && negb (n =? 215))
  then ascii_of_nat (n + 32) else c.

Fixpoint toLowerCase (s : string) : string :=
  match s with
  | EmptyString => EmptyString
  | String c s' => String (lower c) (toLowerCase s')
  end.

(** [s.startsWith(p)]. *)
Fixpoint startsWith (s p : string) : bool :=
  match p, s with
  | EmptyString, _ => true
  | String _ _, EmptyString => false
  | String a p', String b s' => Ascii.eqb a b && startsWith s' p'
  end.

(** [s.includes(q)]: [q] occurs in [s] at some position. *)
Fixpoint includes (s q : string) : bool :=
  startsWith s q ||
  match s with
  | EmptyString => false
  | String _ s' => includes s' q
  end.

(** The class [\s] below 256: TAB, LF, VT, FF, CR, SPACE and NBSP. *)
Definition is_space (c : ascii) : bool :=
  let n := code c in between 9 13 n || (n =? 32) || (n =? 160).

(** The class [\w] (no [u] or [i] flag): ASCII letters, digits and [_]. *)
Definition is_word_char (c : ascii) : bool :=
  let n := code c in
  between 48 57 n || between 65 90 n || between 97 122 n || (n =? 95).

Definition head_is (p : ascii -> bool) (s : string) : bool :=
  match s with
  | EmptyString => false
  | String c _ => p c
  end.

(** [s.split(/\s+/)]: the pieces between maximal runs of white space; a run
    at either end leaves an empty piece there, and the empty string splits
    into one empty piece. *)
Fixpoint split_spaces (s : string) : list string :=
  match s with
  | EmptyString => [EmptyString]
  | String c s' =>
      match split_spaces s' with
      | [] => [String c EmptyString]
      | w :: ws =>
          if is_space c
          then (if head_is is_space s' then w :: ws else EmptyString :: w :: ws)
          else String c w :: ws
      end
  end.

(** [s.match(/\b\w+\b/g) || []]: the maximal runs of word characters, left
    to right. *)
Fixpoint match_words (s : string) : list string :=
  match s with
  | EmptyString => []
  | String c s' =>
      if is_word_char c then
        if head_is is_word_char s' then
          match match_words s' with
          | w :: ws => String c w :: ws
          | [] => [String c EmptyString]
          end
        else String c EmptyString :: match_words s'
      else match_words s'
  end.

End JSString.

(* ------------------------------------------------------------------ *)
(** ** Regular expressions: [new RegExp(word, "g")] and [String.prototype.match]

    The fragment embedded: patterns over ordinary characters, the wildcard
    [.], and the quantifiers [*], [+], [?] with their lazy forms.  A pattern
    that holds one of [\ ^ $ ( ) [ ] { } |] is outside the fragment. *)

Module RegExp.

Inductive atom := Char (c : ascii) | Dot.

Inductive quantifier :=
| Once
| Star (greedy : bool)
| Plus (greedy : bool)
| Opt (greedy : bool).

Definition term : Type := atom * quantifier.

Definition one_of (cs : string) (c : ascii) : bool :=
  existsb (Ascii.eqb c) (list_ascii_of_string cs).

Definition is_quantifier_symbol : ascii -> bool := one_of "*+?".

(** Backslash, anchors, groups, classes, braces and alternation. *)
Definition outside_fragment : ascii -> bool :=
  fun c => one_of "^$()[]{}|" c || (JSString.code c =? 92).

Definition atom_of (c : ascii) : atom :=
  if Ascii.eqb c "."%char then Dot else Char c.

Definition quantifier_of (c : ascii) (greedy : bool) : quantifier :=
  if Ascii.eqb c "*"%char then Star greedy
  else if Ascii.eqb c "+"%char then Plus greedy
  else Opt greedy.

(** The grammar [Alternative :: Term*], [Term :: Atom Quantifier?],
    [Quantifier :: QuantifierPrefix "?"?].  [None]: a quantifier symbol
    stands where an atom is required (nothing to repeat). *)
Fixpoint parse (s : string) : option (list term) :=
  match s with
  | EmptyString => Some []
  | String c s1 =>
      if is_quantifier_symbol c then None
      else
        match s1 with
        | String q s2 =>
            if is_quantifier_symbol q then
              match s2 with
              | String l s3 =>
                  if Ascii.eqb l "?"%char
                  then option_map (cons (atom_of c, quantifier_of q false)) (parse s3)
                  else option_map (cons (atom_of c, quantifier_of q true)) (parse s2)
              | EmptyString => Some [(atom_of c, quantifier_of q true)]
              end
            else option_map (cons (atom_of c, Once)) (parse s1)
        | EmptyString => Some [(atom_of c, Once)]
        end
  end.

Definition in_fragment (pattern : string) : bool :=
  forallb (fun c => negb (outside_fragment c)) (list_ascii_of_string pattern).

(** [new RegExp(pattern, "g")]. *)
Definition create (pattern : string) : outcome (list term) :=
  if in_fragment pattern then
    match parse pattern with
    | Some ts => Returns ts
    | None => Throws SyntaxError
    end
  else Unmodelled.

(** [.] matches any code unit but a line terminator (LF, CR below 256). *)
Definition atom_matches (a : atom) (c : ascii) : bool :=
  match a with
  | Char x => Ascii.eqb x c
  | Dot => negb ((JSString.code c =? 10) || (JSString.code c =? 13))
  end.

Definition step (a : atom) (k : string -> option string) (s : string)
  : option string :=
  match s with
  | String c s' => if atom_matches a c then k s' else None
  | EmptyString => None
  end.

Definition or_else {A : Type} (x y : option A) : option A :=
  match x with Some _ => x | None => y end.

(** [a*] followed by the continuation [k]: a greedy star tries one more
    [a] first, a lazy one tries [k] first. *)
Fixpoint star (a : atom) (greedy : bool) (k : string -> option string)
         (s : string) : option string :=
  let more :=
    match s with
    | String c s' => if atom_matches a c then star a greedy k s' else None
    | EmptyString => None
    end in
  if greedy then or_else more (k s) else or_else (k s) more.

(** The backtracking matcher anchored at the start of [s]: the rest of [s]
    after the first match in priority order. *)
Fixpoint match_here (ts : list term) (s : string) : option string :=
  match ts with
  | [] => Some s
  | (a, q) :: ts' =>
      let k := match_here ts' in
      match q with
      | Once => step a k s
      | Star g => star a g k s
      | Plus g => step a (star a g k) s
      | Opt true => or_else (step a k s) (k s)
      | Opt false => or_else (k s) (step a k s)
      end
  end.

(** The number of matches [s.match(re)] collects for a global [re].
    [skip] code units are still covered by the previous match; an empty
    match advances [lastIndex] by one. *)
Fixpoint count_from (ts : list term) (s : string) (skip : nat) : nat :=
  match skip with
  | S k =>
      match s with
      | String _ s' => count_from ts s' k
      | EmptyString => 0
      end
  | 0 =>
      match match_here ts s with
      | Some rest =>
          S match s with
            | String _ s' =>
                count_from ts s' (String.length s - String.length rest - 1)
            | EmptyString => 0
            end
      | None =>
          match s with
          | String _ s' => count_from ts s' 0
          | EmptyString => 0
          end
      end
  end.

(** [(s.match(re) || []).length]. *)
Definition match_count (re : list term) (s : string) : nat := count_from re s 0.

(** What [keywordSearch] asks of the built-in: [construct pattern] is
    [new RegExp(pattern, "g")], which returns a regular expression or throws,
    and [matches re text] is [(text.match(re) || []).length].  Both depend on
    their arguments only ([match] starts a global expression at index 0).
    The properties of the searches that do not depend on which strings a
    pattern matches are stated for every engine, whatever it does on any
    pattern; [fragment] is the engine embedded above. *)
Class engine : Type := {
  regexp : Type;
  construct : string -> outcome regexp;
  matches : regexp -> string -> nat
}.

#[global] Instance fragment : engine := {|
  regexp := list term;
  construct := create;
  matches := match_count
|}.

End RegExp.

(* ------------------------------------------------------------------ *)
(** ** Arrays *)

Module JSArray.

Section Sort.
Variable A : Type.
(** [before x y]: the comparator called on [(x, y)] returns a negative
    number, so [x] has to come before [y]. *)
Variable before : A -> A -> bool.

(** The sorted prefix is kept last element first; [x] moves towards its
    front past every element it has to come before. *)
Fixpoint insert (x : A) (sorted_rev : list A) : list A :=
  match sorted_rev with
  | [] => [x]
  | y :: rest => if before x y then y :: insert x rest else x :: sorted_rev
  end.

(** [Array.prototype.sort(comparefn)].  The sort is stable, and on a
    consistent comparator every stable sort yields the same array;
    straight insertion stands for it.  (On a comparator that is not
    consistent the language leaves the order to the implementation, and
    the order of straight insertion need not be the implementation's; the
    properties of sorted arrays below are stated for consistent
    comparators.) *)
Definition sort (l : list A) : list A :=
  rev (fold_left (fun acc x => insert x acc) l []).
End Sort.

Arguments insert {A} before x sorted_rev.
Arguments sort {A} before l.

(** [a.slice(0, n)] for a count [n]. *)
Definition slice0 {A : Type} (n : nat) (l : list A) : list A := firstn n l.

End JSArray.

(* ------------------------------------------------------------------ *)
(** ** Objects used as dictionaries, and [Map] *)

Module JSObject.

(** The own enumerable string-keyed properties, in the order
    [Object.keys] and [Object.entries] list them: array indices in
    ascending numeric order, then the other keys in insertion order. *)
Definition object (V : Type) : Type := list (string * V).

Section Properties.
Context {V : Type}.

Definition keys (o : object V) : list string := map fst o.

Fixpoint get (o : object V) (k : string) : option V :=
  match o with
  | [] => None
  | (k', v) :: o' => if String.eqb k' k then Some v else get o' k
  end.

Definition has (o : object V) (k : string) : bool :=
  match get o k with Some _ => true | None => false end.

Fixpoint digits (s : string) (acc : N) : option N :=
  match s with
  | EmptyString => Some acc
  | String c s' =>
      if JSString.between 48 57 (JSString.code c)
      then digits s' (acc * 10 + N.of_nat (JSString.code c - 48))%N
      else None
  end.

(** A key is an array index when it is the canonical decimal form of an
    integer below 2^32 - 1. *)
Definition array_index (k : string) : option N :=
  match k with
  | EmptyString => None
  | String c rest =>
      if Ascii.eqb c "0"%char && negb (String.eqb rest EmptyString) then None
      else
        match digits k 0%N with
        | Some n => if (n <? 4294967295)%N then Some n else None
        | None => None
        end
  end.

Fixpoint replace (k : string) (v : V) (o : object V) : object V :=
  match o with
  | [] => []
  | (k', v') :: o' =>
      if String.eqb k' k then (k, v) :: o' else (k', v') :: replace k v o'
  end.

Fixpoint insert_index (n : N) (k : string) (v : V) (o : object V) : object V :=
  match o with
  | [] => [(k, v)]
  | (k', v') :: o' =>
      match array_index k' with
      | Some n' =>
          if (n' <? n)%N then (k', v') :: insert_index n k v o'
          else (k, v) :: o
      | None => (k, v) :: o
      end
  end.

(** Defining or overwriting the own property [k]. *)
Definition set (o : object V) (k : string) (v : V) : object V :=
  if has o k then replace k v o
  else
    match array_index k with
    | Some n => insert_index n k v o
    | None => o ++ [(k, v)]
    end.

(** The assignment [o[k] = v] of a primitive [v] to an object literal:
    under the key [__proto__] it reaches the setter inherited from
    [Object.prototype], which ignores a primitive; any other key defines
    or overwrites an own property. *)
Definition assign (o : object V) (k : string) (v : V) : object V :=
  if String.eqb k "__proto__" then o else set o k v.
End Properties.

End JSObject.

Module JSMap.

(** The entries of a [Map] with string keys, in insertion order. *)
Definition t (V : Type) : Type := list (string * V).

Section Entries.
Context {V : Type}.

Definition get (m : t V) (k : string) : option V := JSObject.get m k.
Definition has (m : t V) (k : string) : bool := JSObject.has m k.

(** [m.set(k, v)]: an existing key keeps its place. *)
Definition set (m : t V) (k : string) (v : V) : t V :=
  if has m k then JSObject.replace k v m else m ++ [(k, v)].

Definition values (m : t V) : list V := map snd m.
End Entries.

End JSMap.

(** [new Set(l)] keeps the first occurrence of each element. *)
Fixpoint Set_of (l : list string) : list string :=
  match l with
  | [] => []
  | x :: l' => x :: filter (fun y => negb (String.eqb x y)) (Set_of l')
  end.

Definition Set_has (s : list string) (x : string) : bool :=
  existsb (String.eqb x) s.

(* ------------------------------------------------------------------ *)
(** ** Numbers *)

(** The arithmetic of [cosineSimilarity].  [num_absent] is the operand a
    missing property would contribute; the method only reads keys the vector
    owns. *)
Class Arithmetic (T : Type) : Type := {
  num_zero : T;
  num_add : T -> T -> T;
  num_mul : T -> T -> T;
  num_div : T -> T -> T;
  num_sqrt : T -> T;
  num_absent : T
}.

(** JavaScript's Number: IEEE 754 binary64. *)
#[export] Instance binary64 : Arithmetic float := {|
  num_zero := PrimFloat.zero;
  num_add := PrimFloat.add;
  num_mul := PrimFloat.mul;
  num_div := PrimFloat.div;
  num_sqrt := PrimFloat.sqrt;
  num_absent := PrimFloat.nan
|}.

(** The Number an integer count denotes (exact below 2^53). *)
Definition number_of_nat (n : nat) : float :=
  PrimFloat.of_uint63 (Uint63.of_Z (Z.of_nat n)).

(* ------------------------------------------------------------------ *)
(** ** class VectorStore *)

Module VectorStore.

Import JSObject.

(** What [wordCount] holds under a word: a number, or the string that
    [+ 1] builds once the count under that word is not a number. *)
Inductive count := Num (n : nat) | Str (s : string).

(** What the expression [wordCount[word]] evaluates to. *)
Inductive property :=
| Undefined
| Own (c : count)
| ObjectFunction      (* [Object.prototype.constructor], the function [Object] *)
| ObjectPrototype.    (* [Object.prototype], through the getter [__proto__] *)

(** [wordCount] is an object literal: a key it does not own is looked up
    in [Object.prototype].  Among lower-case words only [constructor] and
    [__proto__] name properties of [Object.prototype]. *)
Definition lookup (wordCount : object count) (word : string) : property :=
  match get wordCount word with
  | Some c => Own c
  | None =>
      if String.eqb word "constructor" then ObjectFunction
      else if String.eqb word "__proto__" then ObjectPrototype
      else Undefined
  end.

(** [(p || 0) + 1]: numeric addition on a number, string concatenation
    once the left operand is a string or an object. *)
Definition or_zero_plus_one (p : property) : count :=
  match p with
  | Undefined => Num 1
  | Own (Num n) => Num (n + 1)
  | Own (Str s) => if String.eqb s EmptyString then Num 1 else Str (s ++ "1")
  | ObjectFunction => Str ("function Object() { [native code] }" ++ "1")
  | ObjectPrototype => Str ("[object Object]" ++ "1")
  end.

(** [ToNumber] of a count.  Every string [or_zero_plus_one] builds starts
    with a letter or a bracket, so it is no numeric literal: NaN. *)
Definition ToNumber (c : count) : float :=
  match c with
  | Num n => number_of_nat n
  | Str _ => PrimFloat.nan
  end.

Definition count_word (wordCount : object count) (word : string) : object count :=
  if 2 <? String.length word
  then assign wordCount word (or_zero_plus_one (lookup wordCount word))
  else wordCount.

Definition vectorize (text : string) : object float :=
  let words := JSString.match_words (JSString.toLowerCase text) in
  let totalWords := List.length words in
  let wordCount := fold_left count_word words [] in
  fold_left
    (fun vector entry =>
       assign vector (fst entry)
              (PrimFloat.div (ToNumber (snd entry)) (number_of_nat totalWords)))
    wordCount [].

Section Cosine.
Context {T : Type} `{Arithmetic T}.

(** [vec[word]] read as a number. *)
Definition weight (vec : object T) (word : string) : T :=
  match get vec word with Some w => w | None => num_absent end.

Definition sum_over (words : list string) (f : string -> T) : T :=
  fold_left (fun acc word => num_add acc (f word)) words num_zero.

Definition cosineSimilarity (vec1 vec2 : object T) : T :=
  let words1 := Set_of (keys vec1) in
  let words2 := Set_of (keys vec2) in
  let commonWords := Set_of (filter (Set_has words2) words1) in
  if List.length commonWords =? 0 then num_zero
  else
    let dotProduct :=
      sum_over commonWords (fun word => num_mul (weight vec1 word) (weight vec2 word)) in
    let norm1 := sum_over words1 (fun word => num_mul (weight vec1 word) (weight vec1 word)) in
    let norm2 := sum_over words2 (fun word => num_mul (weight vec2 word) (weight vec2 word)) in
    num_div dotProduct (num_mul (num_sqrt norm1) (num_sqrt norm2)).
End Cosine.

(** The Vector Table [this.embeddings]. *)
Definition embeddings : Type := JSMap.t (object float).

Definition saveEmbedding (e : embeddings) (docId text : string) : embeddings :=
  JSMap.set e docId (vectorize text).

Record hit : Type := { docId : string; similarity : float }.

(** The comparator [(a, b) => b.similarity - a.similarity] is negative. *)
Definition by_similarity (a b : hit) : bool :=
  PrimFloat.ltb (PrimFloat.sub (similarity b) (similarity a)) PrimFloat.zero.

Definition collect (e : embeddings) (queryVector : object float)
           (similarities : list hit) (id : string) : list hit :=
  match JSMap.get e id with
  | Some docVector =>
      similarities ++
        [{| docId := id; similarity := cosineSimilarity queryVector docVector |}]
  | None => similarities
  end.

Definition vectorSearch (e : embeddings) (query : string)
           (docIds : list string) (topK : nat) : list hit :=
  let queryVector := vectorize query in
  let similarities := fold_left (collect e queryVector) docIds [] in
  JSArray.slice0 topK (JSArray.sort by_similarity similarities).

End VectorStore.

(* ------------------------------------------------------------------ *)
(** ** class AdvancedKnowledgeBase *)

Module AdvancedKnowledgeBase.

Import VectorStore.

Record document : Type := {
  id : string;
  title : string;
  content : string;
  category : string;
  tags : list string;
  metadata : list (string * string);
  timestamp : string
}.

Record knowledge_base : Type := {
  documents : list document;
  vectorStore : embeddings
}.

(** [{ ...doc, relevanceScore: score }]. *)
Record keyword_result : Type := {
  kr_doc : document;
  relevanceScore : nat
}.

(** An entry of [combinedResults]: the spread document, the
    [relevanceScore] a keyword result carries, and the three scores. *)
Record combined_result : Type := {
  doc : document;
  cr_relevanceScore : option nat;
  keywordScore : float;
  vectorScore : float;
  combinedScore : float
}.

Section Search.
Context {RX : RegExp.engine}.

(** One iteration of the loop over [queryWords]. *)
Definition word_matches (d : document) (score : nat) (word : string) : outcome nat :=
  if 2 <? String.length word then
    re_title <- RegExp.construct word ;;
    let titleMatches := RegExp.matches re_title (JSString.toLowerCase (title d)) in
    re_content <- RegExp.construct word ;;
    let contentMatches := RegExp.matches re_content (JSString.toLowerCase (content d)) in
    Returns (score + (titleMatches * 2 + contentMatches * 1))
  else Returns score.

(** The body of the loop over [this.documents], up to the final [score]. *)
Definition score_of (queryLower : string) (d : document) : outcome nat :=
  let score := 0 in
  let score :=
    if JSString.includes (JSString.toLowerCase (title d)) queryLower
    then score + 5 else score in
  let score :=
    if JSString.includes (JSString.toLowerCase (content d)) queryLower
    then score + 3 else score in
  let score :=
    fold_left
      (fun score tag =>
         if JSString.includes (JSString.toLowerCase tag) queryLower
         then score + 2 else score)
      (tags d) score in
  let queryWords := JSString.split_spaces queryLower in
  for_of (word_matches d) queryWords score.

Definition by_relevance (a b : keyword_result) : bool :=
  relevanceScore b <? relevanceScore a.

Definition scan (queryLower : string) (results : list keyword_result)
           (d : document) : outcome (list keyword_result) :=
  score <- score_of queryLower d ;;
  Returns (if 0 <? score
           then results ++ [{| kr_doc := d; relevanceScore := score |}]
           else results).

Definition keywordSearch (docs : list document) (query : string)
           (maxResults : nat) : outcome (list keyword_result) :=
  let queryLower := JSString.toLowerCase query in
  results <- for_of (scan queryLower) docs [] ;;
  Returns (JSArray.slice0 maxResults (JSArray.sort by_relevance results)).
End Search.

(** [doc.relevanceScore || 0]. *)
Definition or_zero (score : nat) : float :=
  if score =? 0 then PrimFloat.zero else number_of_nat score.

(** The entry a keyword result is stored as. *)
Definition keyword_only (r : keyword_result) : combined_result :=
  {| doc := kr_doc r;
     cr_relevanceScore := Some (relevanceScore r);
     keywordScore := or_zero (relevanceScore r);
     vectorScore := PrimFloat.zero;
     combinedScore := or_zero (relevanceScore r) |}.

(** The entry [existing] after the two assignments to its [vectorScore]
    and [combinedScore]. *)
Definition blend (existing : combined_result) (result : hit) : combined_result :=
  {| doc := doc existing;
     cr_relevanceScore := cr_relevanceScore existing;
     keywordScore := keywordScore existing;
     vectorScore := similarity result;
     combinedScore :=
       PrimFloat.add
         (PrimFloat.mul (keywordScore existing) 0.6%float)
         (PrimFloat.mul (similarity result) 0.4%float) |}.

(** The entry stored for a document only the vector search found. *)
Definition vector_only (d : document) (result : hit) : combined_result :=
  {| doc := d;
     cr_relevanceScore := None;
     keywordScore := PrimFloat.zero;
     vectorScore := similarity result;
     combinedScore := PrimFloat.mul (similarity result) 0.4%float |}.

Definition add_keyword (combinedResults : JSMap.t combined_result)
           (r : keyword_result) : JSMap.t combined_result :=
  JSMap.set combinedResults (id (kr_doc r)) (keyword_only r).

Definition add_vector (docs : list document)
           (combinedResults : JSMap.t combined_result)
           (result : hit) : JSMap.t combined_result :=
  match find (fun d => String.eqb (id d) (docId result)) docs with
  | Some d =>
      JSMap.set combinedResults (id d)
        match JSMap.get combinedResults (id d) with
        | Some existing => blend existing result
        | None => vector_only d result
        end
  | None => combinedResults
  end.

(** Step 3 of [hybridRetrieval]: the two [forEach] loops. *)
Definition fuse (docs : list document) (keywordResults : list keyword_result)
           (vectorResults : list hit) : JSMap.t combined_result :=
  fold_left (add_vector docs) vectorResults
            (fold_left add_keyword keywordResults []).

Definition by_combined (a b : combined_result) : bool :=
  PrimFloat.ltb (PrimFloat.sub (combinedScore b) (combinedScore a)) PrimFloat.zero.

Definition hybridRetrieval {RX : RegExp.engine} (kb : knowledge_base)
           (query : string) (maxResults : nat) : outcome (list combined_result) :=
  keywordResults <- keywordSearch (documents kb) query (maxResults * 2) ;;
  let docIds := map id (documents kb) in
  let vectorResults := vectorSearch (vectorStore kb) query docIds (maxResults * 2) in
  let combinedResults := fuse (documents kb) keywordResults vectorResults in
  Returns (JSArray.slice0 maxResults
             (JSArray.sort by_combined (JSMap.values combinedResults))).

(** [addDocument] with the identifier supplied by the caller. *)
Definition addDocument (kb : knowledge_base) (d : document) : knowledge_base :=
  {| documents := documents kb ++ [d];
     vectorStore := saveEmbedding (vectorStore kb) (id d) (title d ++ " " ++ content d) |}.

End AdvancedKnowledgeBase.

(* ------------------------------------------------------------------ *)
(** ** Notions the properties are stated with *)

Module Reference.

Import VectorStore AdvancedKnowledgeBase.

(** [s] without its first [n] characters. *)
Fixpoint drop (n : nat) (s : string) : string :=
  match n, s with
  | S n', String _ s' => drop n' s'
  | _, _ => s
  end.

(** The occurrences of the literal text [w] in [s], counted from the left
    without overlap: after an occurrence the count resumes behind it.
    [skip] characters are still part of the last occurrence. *)
Fixpoint occurrences_from (w s : string) (skip : nat) : nat :=
  match skip with
  | S k =>
      match s with
      | String _ s' => occurrences_from w s' k
      | EmptyString => 0
      end
  | 0 =>
      if JSString.startsWith s w then
        S match s with
          | String _ s' => occurrences_from w s' (String.length w - 1)
          | EmptyString => 0
          end
      else
        match s with
        | String _ s' => occurrences_from w s' 0
        | EmptyString => 0
        end
  end.

Definition occurrences (w s : string) : nat := occurrences_from w s 0.

(** A word is plain text when none of its characters has a meaning in a
    regular expression. *)
Definition plain_char (c : ascii) : bool :=
  negb (RegExp.outside_fragment c) && negb (RegExp.is_quantifier_symbol c) &&
  negb (Ascii.eqb c "."%char).

Definition plain (word : string) : bool :=
  forallb plain_char (list_ascii_of_string word).

(** The query words longer than two characters are all plain text. *)
Definition plain_query (query : string) : Prop :=
  forall word,
    In word (JSString.split_spaces (JSString.toLowerCase query)) ->
    2 < String.length word -> plain word = true.

(** The pattern that matches the text [w] and nothing else. *)
Definition literal (w : string) : list RegExp.term :=
  map (fun c => (RegExp.Char c, RegExp.Once)) (list_ascii_of_string w).

(** The keyword score as the specification words it: 5 for the title, 3 for
    the content, 2 for each tag that contains the case-folded query, and for
    each query word longer than two characters 2 per occurrence in the title
    and 1 per occurrence in the content. *)
Definition word_score (d : document) (word : string) : nat :=
  if 2 <? String.length word
  then occurrences word (JSString.toLowerCase (title d)) * 2 +
       occurrences word (JSString.toLowerCase (content d)) * 1
  else 0.

Definition keyword_score (query : string) (d : document) : nat :=
  let q := JSString.toLowerCase query in
  (if JSString.includes (JSString.toLowerCase (title d)) q then 5 else 0) +
  (if JSString.includes (JSString.toLowerCase (content d)) q then 3 else 0) +
  2 * length (filter (fun tag => JSString.includes (JSString.toLowerCase tag) q)
                     (tags d)) +
  list_sum (map (word_score d) (JSString.split_spaces q)).

(** The engine builds a regular expression from every query word that
    [keywordSearch] passes to [new RegExp]: the words of the case-folded
    query longer than two characters. *)
Definition builds {RX : RegExp.engine} (query : string) : Prop :=
  forall word,
    In word (JSString.split_spaces (JSString.toLowerCase query)) ->
    2 < String.length word ->
    exists re, RegExp.construct word = Returns re.

(** The engine answers every pattern, as [new RegExp] does: it returns a
    regular expression or throws. *)
Definition answers (RX : RegExp.engine) : Prop :=
  forall pattern, RegExp.construct pattern <> Unmodelled.

(** A comparator is consistent on the elements of [l]: on them [before] is
    a strict weak order. *)
Definition consistent {A : Type} (before : A -> A -> bool) (l : list A) : Prop :=
  (forall x, In x l -> before x x = false) /\
  (forall x y z, In x l -> In y l -> In z l ->
                 before x y = true -> before y z = true -> before x z = true) /\
  (forall x y z, In x l -> In y l -> In z l ->
                 before x y = false -> before y z = false -> before x z = false).

(** [x] and [y] tie: neither has to come before the other. *)
Definition tie {A : Type} (before : A -> A -> bool) (x y : A) : bool :=
  negb (before x y) && negb (before y x).

(** A document with the keyword score of the specification. *)
Definition scored (query : string) (d : document) : keyword_result :=
  {| kr_doc := d; relevanceScore := keyword_score query d |}.

(** The documents [keywordSearch] keeps: those with a positive score, in
    corpus order. *)
Definition matching (query : string) (docs : list document) : list keyword_result :=
  map (scored query) (filter (fun d => 0 <? keyword_score query d) docs).

(** What [keywordSearch] pushes for a document under the empty query. *)
Definition empty_query_result (d : document) : keyword_result :=
  {| kr_doc := d; relevanceScore := 8 + 2 * length (tags d) |}.

(** An invariant of [combinedResults]: keys are distinct, and each entry is
    stored under the id of its own document, which is one of [docs]. *)
Definition keyed (docs : list document) (m : JSMap.t combined_result) : Prop :=
  NoDup (JSObject.keys m) /\
  forall k r, In (k, r) m -> id (doc r) = k /\ In (doc r) docs.

(** What [wordCount] holds under [w] once the words [p] are counted. *)
Definition counted (p : list string) (w : string) : option count :=
  if (2 <? String.length w) && (0 <? count_occ string_dec p w)
  then Some (Num (count_occ string_dec p w)) else None.

(** Words that name a property every object literal inherits. *)
Definition inherited (word : string) : bool :=
  String.eqb word "constructor" || String.eqb word "__proto__".

(** [s / (sqrt s * sqrt s)]: what [cosineSimilarity(V, V)] returns when the
    squared weights of [V] add up to [s]. *)
Definition self_similarity (s : float) : float :=
  PrimFloat.div s (PrimFloat.mul (PrimFloat.sqrt s) (PrimFloat.sqrt s)).

(** [r] differs from 1 by at most 2^-52. *)
Definition close_to_one (r : float) : bool :=
  PrimFloat.leb (PrimFloat.sub 1%float 0x1p-52%float) r &&
  PrimFloat.leb r (PrimFloat.add 1%float 0x1p-52%float).

(** The running sum of squared weights after a word that occurs [c] times
    among [total] tokens. *)
Definition add_square (total acc : float) (c : nat) : float :=
  let w := PrimFloat.div (number_of_nat c) total in
  PrimFloat.add acc (PrimFloat.mul w w).

(** A check by enumeration: every sequence of counts, each at least 1 and
    of sum at most [budget], takes the running sum [acc] to a sum whose
    [self_similarity] is close to one.  [fuel] bounds the length of the
    sequences. *)
Fixpoint all_close (fuel : nat) (total : float) (budget : nat) (acc : float) : bool :=
  match fuel with
  | 0 => true
  | S fuel' =>
      forallb
        (fun c =>
           let acc' := add_square total acc c in
           close_to_one (self_similarity acc') &&
           all_close fuel' total (budget - c) acc')
        (seq 1 budget)
  end.

(** The check for every number of tokens from 1 to [most]. *)
Definition all_close_up_to (most : nat) : bool :=
  forallb (fun n => all_close n (number_of_nat n) n PrimFloat.zero) (seq 1 most).

End Reference.

(* ------------------------------------------------------------------ *)
(** ** A worked corpus *)

Module Corpus.

Import VectorStore AdvancedKnowledgeBase.

Definition make (i t c : string) (tg : list string) : document :=
  {| id := i; title := t; content := c; category := "general";
     tags := tg; metadata := []; timestamp := "2024-01-01T00:00:00.000Z" |}.

Definition DocA : document :=
  make "A" "Alpha Systems" "alpha beta gamma alpha" ["alpha"].

Definition DocB : document :=
  make "B" "Beta Overview" "beta gamma delta" ["beta"].

Definition empty : knowledge_base := {| documents := []; vectorStore := [] |}.

(** Doc A and Doc B, added in that order. *)
Definition kb : knowledge_base := addDocument (addDocument empty DocA) DocB.

(** Three notes, the second of which mentions a constructor, added in that
    order; [notes] is the Vector Table [addDocument] has then built. *)
Definition Note1 : document := make "n1" "alpha beta" "" [].
Definition Note2 : document := make "n2" "alpha constructor" "" [].
Definition Note3 : document := make "n3" "alpha" "" [].

Definition notes_kb : knowledge_base :=
  addDocument (addDocument (addDocument empty Note1) Note2) Note3.

Definition notes : embeddings := vectorStore notes_kb.

End Corpus.

(* ------------------------------------------------------------------ *)
(** ** The rest of the file: ingestion, statistics, strategies, commands

    The methods below sit around the retrieval core: [getDocument],
    [addDocument] and [getStats] of [AdvancedKnowledgeBase], the fallback of
    [analyzeIntent] and [executeRetrievalStrategy] of [AdvancedAgenticAgent],
    and the command loop and the tag input of [AdvancedAgenticRAGApp]. *)

Module JSStringOps.

(** [s.trimStart()] and [s.trimEnd()]: white space and line terminators
    (the class [\s]) are dropped at that end. *)
Fixpoint trimStart (s : string) : string :=
  match s with
  | EmptyString => EmptyString
  | String c s' => if JSString.is_space c then trimStart s' else s
  end.

Fixpoint trimEnd (s : string) : string :=
  match s with
  | EmptyString => EmptyString
  | String c s' =>
      let t := trimEnd s' in
      if JSString.is_space c && String.eqb t EmptyString
      then EmptyString else String c t
  end.

(** [s.trim()]. *)
Definition trim (s : string) : string := trimEnd (trimStart s).

(** [s.split(sep)] for a separator of one character: the pieces between
    its occurrences; the empty string splits into one empty piece. *)
Fixpoint split (sep : ascii) (s : string) : list string :=
  match s with
  | EmptyString => [EmptyString]
  | String c s' =>
      match split sep s' with
      | [] => [String c EmptyString]
      | w :: ws => if Ascii.eqb c sep then EmptyString :: w :: ws else String c w :: ws
      end
  end.

(** [s.substring(n)]: [s] from index [n] on. *)
Fixpoint substring (n : nat) (s : string) : string :=
  match n, s with
  | S n', String _ s' => substring n' s'
  | _, _ => s
  end.

End JSStringOps.

(** The texts of the source whose characters lie outside the range of the
    string model; only their identity matters.  [label_user] is the default
    author (U+7528 U+6237), [label_unknown] the default difficulty and
    reading time (U+672A U+77E5), [label_other] the default domain
    (U+5176 U+4ED6). *)
Record labels : Type := {
  label_user : string;
  label_unknown : string;
  label_other : string
}.

Module Prototype.

(** What an object literal inherits under a key it does not own: one of the
    functions of [Object.prototype], or, through the accessor [__proto__],
    [Object.prototype] itself. *)
Inductive inherited_value :=
| Function (name : string)
| ThePrototype.

(** The properties of [Object.prototype], with the name each function
    prints under. *)
Definition inherited (k : string) : option inherited_value :=
  if String.eqb k "constructor" then Some (Function "Object")
  else if String.eqb k "__proto__" then Some ThePrototype
  else if existsb (String.eqb k)
            ["hasOwnProperty"; "isPrototypeOf"; "propertyIsEnumerable";
             "toLocaleString"; "toString"; "valueOf";
             "__defineGetter__"; "__defineSetter__";
             "__lookupGetter__"; "__lookupSetter__"]
  then Some (Function k)
  else None.

(** [String(f)] for a built-in function [f]. *)
Definition function_text (name : string) : string :=
  "function " ++ name ++ "() { [native code] }".

(** [(o[k] || 0) + 1] for a tally [o] kept in an object literal: one more
    than the number under [k], 1 under a key not seen, and a string once the
    value read is a string, a function or an object. *)
Definition or_zero_plus_one (o : JSObject.object VectorStore.count) (k : string)
  : VectorStore.count :=
  match JSObject.get o k with
  | Some (VectorStore.Num n) => VectorStore.Num (n + 1)
  | Some (VectorStore.Str s) =>
      if String.eqb s EmptyString then VectorStore.Num 1
      else VectorStore.Str (s ++ "1")
  | None =>
      match inherited k with
      | Some (Function name) => VectorStore.Str (function_text name ++ "1")
      | Some ThePrototype => VectorStore.Str ("[object Object]" ++ "1")
      | None => VectorStore.Num 1
      end
  end.

(** [o[k] = (o[k] || 0) + 1]. *)
Definition count_key (o : JSObject.object VectorStore.count) (k : string)
  : JSObject.object VectorStore.count :=
  JSObject.assign o k (or_zero_plus_one o k).

End Prototype.

Module KnowledgeBase.

Import VectorStore AdvancedKnowledgeBase.

(** [getDocument(docId)]: [undefined] is [None]. *)
Definition getDocument (kb : knowledge_base) (docId : string) : option document :=
  find (fun d => String.eqb (id d) docId) (documents kb).

(** [{ ...target, ...source }]: each own property of [source] is defined on
    the copy of [target], in the order [source] lists them. *)
Definition spread {V : Type} (target source : JSObject.object V) : JSObject.object V :=
  fold_left (fun o entry => JSObject.set o (fst entry) (snd entry)) source target.

(** The document [addDocument] builds from its five arguments.  [new_id]
    stands for the identifier made of the clock and four random bytes, [now]
    for the time stamp. *)
Definition new_document (L : labels) (new_id now : string)
           (title content category : string) (tags : list string)
           (metadata : JSObject.object string) : document :=
  {| id := new_id;
     title := title;
     content := content;
     category := category;
     tags := tags;
     metadata :=
       spread [("author", label_user L);
               ("difficulty", label_unknown L);
               ("readTime", label_unknown L)]
              metadata;
     timestamp := now |}.

(** [addDocument(title, content, category, tags, metadata)]: the new state
    and the identifier returned. *)
Definition addDocument (L : labels) (new_id now : string) (kb : knowledge_base)
           (title content category : string) (tags : list string)
           (metadata : JSObject.object string) : knowledge_base * string :=
  let doc := new_document L new_id now title content category tags metadata in
  ({| documents := documents kb ++ [doc];
      vectorStore := saveEmbedding (vectorStore kb) (id doc) (title ++ " " ++ content) |},
   id doc).

Record stats : Type := {
  totalDocuments : nat;
  categories : JSObject.object count;
  difficulties : JSObject.object count;
  vectorizedDocs : nat
}.

(** [doc.metadata?.difficulty || label_unknown]. *)
Definition difficulty_of (L : labels) (d : document) : string :=
  match JSObject.get (metadata d) "difficulty" with
  | Some v => if String.eqb v EmptyString then label_unknown L else v
  | None => label_unknown L
  end.

(** One iteration of the loop of [getStats] over [this.documents]. *)
Definition tally (L : labels)
           (acc : JSObject.object count * JSObject.object count) (d : document)
  : JSObject.object count * JSObject.object count :=
  (Prototype.count_key (fst acc) (category d),
   Prototype.count_key (snd acc) (difficulty_of L d)).

Definition getStats (L : labels) (kb : knowledge_base) : stats :=
  let tallies := fold_left (tally L) (documents kb) ([], []) in
  {| totalDocuments := length (documents kb);
     categories := fst tallies;
     difficulties := snd tallies;
     vectorizedDocs := length (vectorStore kb) |}.

End KnowledgeBase.

Module Agent.

Import VectorStore AdvancedKnowledgeBase.

Record intent : Type := {
  primaryIntent : string;
  secondaryIntents : list string;
  entities : list string;
  keywords : list string;
  complexity : string;
  domain : string;
  needsRetrieval : bool;
  retrievalStrategy : string;
  responseStyle : string
}.

(** The intent [analyzeIntent] returns when the model call fails or its
    reply holds no JSON object. *)
Definition default_intent (L : labels) (query : string) : intent :=
  {| primaryIntent := "question";
     secondaryIntents := [];
     entities := [];
     keywords :=
       filter (fun word => 2 <? String.length word) (JSString.split_spaces query);
     complexity := "medium";
     domain := label_other L;
     needsRetrieval := true;
     retrievalStrategy := "hybrid";
     responseStyle := "detailed" |}.

(** [analyzeIntent(query)], given what the model call yielded: [Some i]
    when its reply held a JSON object that parsed to the intent [i] (an
    object with these fields), [None] when the call failed, the reply held no
    JSON object, or parsing threw. *)
Definition analyzeIntent (L : labels) (reply : option intent) (query : string) : intent :=
  match reply with
  | Some i => i
  | None => default_intent L query
  end.

(** An element of [retrievedDocs]: a keyword result, a document (or nothing)
    spread beside a [vectorScore], or a fused entry. *)
Inductive retrieved :=
| ByKeyword (r : keyword_result)
| ByVector (d : option document) (vectorScore : float)
| ByFusion (r : combined_result).

(** [executeRetrievalStrategy(query, intent)]: the array it returns (the
    lines it prints are left out). *)
Definition executeRetrievalStrategy {RX : RegExp.engine} (kb : knowledge_base)
           (query : string) (i : intent) : outcome (list retrieved) :=
  if String.eqb (retrievalStrategy i) "keyword" then
    retrievedDocs <- keywordSearch (documents kb) query 5 ;;
    Returns (map ByKeyword retrievedDocs)
  else if String.eqb (retrievalStrategy i) "vector" then
    let docIds := map id (documents kb) in
    let vectorResults := vectorSearch (vectorStore kb) query docIds 5 in
    Returns (map (fun result =>
                    ByVector (KnowledgeBase.getDocument kb (docId result))
                             (similarity result))
                 vectorResults)
  else
    retrievedDocs <- hybridRetrieval kb query 5 ;;
    Returns (map ByFusion retrievedDocs).

End Agent.

Module App.

(** What one line of input makes the command loop do. *)
Inductive action :=
| Prompt                    (* nothing: ask again *)
| Exit
| Help
| Add
| Stats
| Export
| Clear
| Search (query : string)   (* [this.kb.hybridRetrieval(query, 5)] *)
| Ask (command : string).   (* [this.agent.process(command)] *)

(** The body of the callback of [run]: [input.trim()], the test
    [!command], the [switch] on [command.toLowerCase()] and its default. *)
Definition dispatch (input : string) : action :=
  let command := JSStringOps.trim input in
  if String.eqb command EmptyString then Prompt
  else
    let lowered := JSString.toLowerCase command in
    if String.eqb lowered "exit" || String.eqb lowered "quit" then Exit
    else if String.eqb lowered "help" then Help
    else if String.eqb lowered "add" then Add
    else if String.eqb lowered "stats" then Stats
    else if String.eqb lowered "export" then Export
    else if String.eqb lowered "clear" then Clear
    else if JSString.startsWith command "search "
    then Search (JSStringOps.substring 7 command)
    else Ask command.

(** The tags [addDocument] of the application passes on:
    [tagsInput.split(",").map((tag) => tag.trim()).filter((tag) => tag)]. *)
Definition tags_of_input (tagsInput : string) : list string :=
  filter (fun tag => negb (String.eqb tag EmptyString))
         (map JSStringOps.trim (JSStringOps.split ","%char tagsInput)).

End App.

(* ------------------------------------------------------------------ *)
(** ** Notions for the properties of these methods *)

Module Invariants.

Import VectorStore AdvancedKnowledgeBase.

(** Every document of the corpus has an entry in the Vector Table. *)
Definition vectorized (kb : knowledge_base) : Prop :=
  forall d, In d (documents kb) -> JSMap.has (vectorStore kb) (id d) = true.

(** Document ids are distinct and the Vector Table holds one entry per
    document, in the order of the corpus: the states [addDocument] builds
    from the empty one. *)
Definition well_formed (kb : knowledge_base) : Prop :=
  NoDup (map id (documents kb)) /\
  JSObject.keys (vectorStore kb) = map id (documents kb).

(** [n] times the character [1]. *)
Fixpoint ones (n : nat) : string :=
  match n with
  | 0 => EmptyString
  | S n' => String "1"%char (ones n')
  end.

(** What a tally of the keys [l] holds under [k]. *)
Definition tallied (l : list string) (k : string) : option count :=
  match count_occ string_dec l k with
  | 0 => None
  | S n =>
      match Prototype.inherited k with
      | None => Some (Num (S n))
      | Some (Prototype.Function name) =>
          Some (Str (Prototype.function_text name ++ ones (S n)))
      | Some Prototype.ThePrototype => None
      end
  end.

(** The last character of [s] is white space. *)
Fixpoint ends_with_space (s : string) : bool :=
  match s with
  | EmptyString => false
  | String c EmptyString => JSString.is_space c
  | String _ s' => ends_with_space s'
  end.

(** [s] consists of white space only. *)
Definition blank (s : string) : bool :=
  forallb JSString.is_space (list_ascii_of_string s).

(** The character [c] occurs in [s]. *)
Definition occurs (c : ascii) (s : string) : Prop :=
  In c (list_ascii_of_string s).

End Invariants.

(* ================================================================== *)
(** * Properties *)

Import Reference.

(* ------------------------------------------------------------------ *)
(** ** Arrays: sorting permutes, slicing selects *)

Section SortFacts.
Context {A : Type} (before : A -> A -> bool).

Lemma insert_perm (x : A) (l : list A) :
  Permutation (JSArray.insert before x l) (x :: l).
Proof.
  induction l as [|y l IH]; simpl.
  - apply Permutation_refl.
  - destruct (before x y).
    + eapply perm_trans; [apply perm_skip, IH | apply perm_swap].
    + apply Permutation_refl.
Qed.

Lemma insert_all_perm (l acc : list A) :
  Permutation (fold_left (fun acc x => JSArray.insert before x acc) l acc)
              (rev l ++ acc).
Proof.
  revert acc; induction l as [|x l IH]; intro acc; simpl.
  - apply Permutation_refl.
  - eapply perm_trans; [apply IH|].
    rewrite <- app_assoc; simpl.
    apply Permutation_app_head, insert_perm.
Qed.

Lemma sort_perm (l : list A) : Permutation (JSArray.sort before l) l.
Proof.
  unfold JSArray.sort.
  eapply perm_trans; [apply Permutation_sym, Permutation_rev|].
  eapply perm_trans; [apply insert_all_perm|].
  rewrite app_nil_r. apply Permutation_sym, Permutation_rev.
Qed.

Lemma sort_In (l : list A) (x : A) : In x (JSArray.sort before l) <-> In x l.
Proof.
  split; apply Permutation_in;
    [apply sort_perm | apply Permutation_sym, sort_perm].
Qed.

Lemma sort_length (l : list A) : length (JSArray.sort before l) = length l.
Proof. apply Permutation_length, sort_perm. Qed.
End SortFacts.

Lemma slice0_In {A : Type} (n : nat) (l : list A) (x : A) :
  In x (JSArray.slice0 n l) -> In x l.
Proof.
  unfold JSArray.slice0. revert l; induction n as [|n IH]; intros [|y l]; simpl;
    try tauto.
  intros [->|H]; auto.
Qed.

Lemma slice0_length {A : Type} (n : nat) (l : list A) :
  length (JSArray.slice0 n l) = Nat.min n (length l).
Proof. apply length_firstn. Qed.

Lemma slice0_NoDup {A : Type} (n : nat) (l : list A) :
  NoDup l -> NoDup (JSArray.slice0 n l).
Proof.
  unfold JSArray.slice0. revert l; induction n as [|n IH]; intros [|y l] Hl; simpl;
    try constructor.
  - inversion Hl; subst. intro Hin. apply (slice0_In n l y) in Hin. contradiction.
  - inversion Hl; subst. now apply IH.
Qed.

Lemma slice0_map {A B : Type} (f : A -> B) (n : nat) (l : list A) :
  map f (JSArray.slice0 n l) = JSArray.slice0 n (map f l).
Proof. unfold JSArray.slice0. symmetry. apply firstn_map. Qed.

(* ------------------------------------------------------------------ *)
(** ** Objects and maps: reading after writing *)

Section MapFacts.
Context {V : Type}.
Implicit Types (m : list (string * V)) (k : string) (v : V).

Lemma get_In m k v : JSObject.get m k = Some v -> In (k, v) m.
Proof.
  induction m as [|[k' v'] m IH]; simpl; [discriminate|].
  destruct (String.eqb_spec k' k) as [->|_].
  - intros [= ->]. now left.
  - intro H. right. now apply IH.
Qed.

Lemma get_None_keys m k : JSObject.get m k = None <-> ~ In k (JSObject.keys m).
Proof.
  induction m as [|[k' v'] m IH]; simpl.
  - split; auto.
  - destruct (String.eqb_spec k' k) as [->|Hne].
    + split; [discriminate | intros H; exfalso; apply H; now left].
    + rewrite IH. split.
      * intros H [E|Hin]; [now apply Hne | now apply H].
      * intros H Hin. apply H. now right.
Qed.

Lemma In_get m k v :
  NoDup (JSObject.keys m) -> In (k, v) m -> JSObject.get m k = Some v.
Proof.
  induction m as [|[k' v'] m IH]; simpl; [contradiction|].
  intros Hnd Hin. inversion Hnd as [|? ? Hk Hnd']; subst.
  destruct Hin as [[= -> ->]|Hin].
  - now rewrite String.eqb_refl.
  - destruct (String.eqb_spec k' k) as [->|_]; [|now apply IH].
    exfalso. apply Hk. change k with (fst (k, v)). now apply in_map.
Qed.

Lemma has_true m k : JSObject.has m k = true <-> In k (JSObject.keys m).
Proof.
  unfold JSObject.has. destruct (JSObject.get m k) eqn:E.
  - split; [intros _|reflexivity].
    change k with (fst (k, v)). apply in_map. now apply get_In.
  - split; [discriminate|]. intro H. now apply get_None_keys in E.
Qed.

Lemma replace_keys m k v :
  JSObject.keys (JSObject.replace k v m) = JSObject.keys m.
Proof.
  induction m as [|[k' v'] m IH]; simpl; [reflexivity|].
  destruct (String.eqb_spec k' k) as [->|_]; simpl; [reflexivity|].
  now rewrite IH.
Qed.

Lemma get_replace m k v k' :
  JSObject.get (JSObject.replace k v m) k' =
  if String.eqb k k' then option_map (fun _ => v) (JSObject.get m k)
  else JSObject.get m k'.
Proof.
  induction m as [|[k0 v0] m IH]; simpl.
  - now destruct (String.eqb k k').
  - destruct (String.eqb_spec k0 k) as [->|Hne]; simpl.
    + destruct (String.eqb_spec k k'); reflexivity.
    + rewrite IH. destruct (String.eqb_spec k k') as [E|Hkk'].
      * subst k'. destruct (String.eqb_spec k0 k); [contradiction|reflexivity].
      * reflexivity.
Qed.

Lemma get_app m1 m2 k :
  JSObject.get (m1 ++ m2) k =
  match JSObject.get m1 k with Some v => Some v | None => JSObject.get m2 k end.
Proof.
  induction m1 as [|[k0 v0] m1 IH]; simpl; [reflexivity|].
  destruct (String.eqb k0 k); [reflexivity | apply IH].
Qed.

(** [m.get(k')] after [m.set(k, v)]. *)
Lemma Map_get_set m k v k' :
  JSMap.get (JSMap.set m k v) k' =
  if String.eqb k k' then Some v else JSMap.get m k'.
Proof.
  unfold JSMap.get, JSMap.set, JSMap.has, JSObject.has.
  destruct (JSObject.get m k) eqn:E.
  - rewrite get_replace, E. reflexivity.
  - rewrite get_app. simpl. destruct (String.eqb_spec k k') as [<-|_].
    + now rewrite E.
    + now destruct (JSObject.get m k').
Qed.

Lemma Map_set_keys_NoDup m k v :
  NoDup (JSObject.keys m) -> NoDup (JSObject.keys (JSMap.set m k v)).
Proof.
  intro Hnd. unfold JSMap.set, JSMap.has.
  destruct (JSObject.has m k) eqn:E.
  - now rewrite replace_keys.
  - unfold JSObject.keys. rewrite map_app. simpl.
    apply NoDup_app.
    + exact Hnd.
    + repeat constructor. simpl. tauto.
    + intros x Hx [<-|[]]. apply has_true in Hx. congruence.
Qed.

Lemma Map_values_get m v :
  In v (JSMap.values m) -> exists k, In (k, v) m.
Proof.
  unfold JSMap.values. intro H. apply in_map_iff in H as [[k v'] [E Hin]].
  simpl in E. subst. now exists k.
Qed.
End MapFacts.

(* ------------------------------------------------------------------ *)
(** ** Outcomes *)

Lemma bind_Returns {A B : Type} (m : outcome A) (k : A -> outcome B) (b : B) :
  bind m k = Returns b -> exists a, m = Returns a /\ k a = Returns b.
Proof. destruct m; simpl; try discriminate. intro H. now exists a. Qed.

(** A loop that returns has kept an invariant its body keeps. *)
Lemma for_of_invariant {A S : Type} (P : S -> Prop) (Q : A -> Prop)
      (body : S -> A -> outcome S) (l : list A) (s s' : S) :
  (forall s a s1, P s -> Q a -> body s a = Returns s1 -> P s1) ->
  (forall a, In a l -> Q a) ->
  P s -> for_of body l s = Returns s' -> P s'.
Proof.
  intros Hbody. revert s. induction l as [|a l IH]; simpl; intros s HQ Hs H.
  - now injection H as <-.
  - apply bind_Returns in H as [s1 [H1 H2]].
    apply (IH s1); auto. apply (Hbody s a); auto.
Qed.

(* ------------------------------------------------------------------ *)
(** ** The two searches: where their results come from *)

Section SearchFacts.
Import VectorStore AdvancedKnowledgeBase.
Context {RX : RegExp.engine}.

Lemma keywordSearch_results docs query maxResults results r :
  keywordSearch docs query maxResults = Returns results ->
  In r results -> In (kr_doc r) docs /\ 0 < relevanceScore r.
Proof.
  unfold keywordSearch. intros H Hr.
  apply bind_Returns in H as [found [Hfound H]]. injection H as <-.
  apply slice0_In, sort_In in Hr. revert r Hr.
  apply (for_of_invariant
           (fun res => forall r, In r res -> In (kr_doc r) docs /\ 0 < relevanceScore r)
           (fun d => In d docs) _ _ _ _) with (4 := Hfound); auto.
  - intros res d res1 Hres Hd Hscan r.
    unfold scan in Hscan. apply bind_Returns in Hscan as [score [_ E]].
    injection E as <-. destruct (0 <? score) eqn:Hpos; auto.
    intro Hin. apply in_app_or in Hin as [Hin|[<-|[]]]; auto.
    simpl. split; auto. now apply Nat.ltb_lt.
  - intros r [].
Qed.

Lemma collect_ids e queryVector ids acc :
  map docId (fold_left (collect e queryVector) ids acc) =
  map docId acc ++ filter (JSMap.has e) ids.
Proof.
  revert acc. induction ids as [|i ids IH]; intro acc; simpl.
  - now rewrite app_nil_r.
  - rewrite IH. unfold collect, JSMap.has, JSMap.get, JSObject.has.
    destruct (JSObject.get e i); [|reflexivity].
    rewrite map_app, <- app_assoc. reflexivity.
Qed.

(** [vectorSearch] returns the first [topK] of a rearrangement of the
    candidates that have a vector. *)
Lemma vectorSearch_ids e query ids topK :
  exists hits,
    Permutation (map docId hits) (filter (JSMap.has e) ids) /\
    vectorSearch e query ids topK = JSArray.slice0 topK hits.
Proof.
  unfold vectorSearch.
  eexists; split; [|reflexivity].
  eapply perm_trans; [apply Permutation_map, sort_perm|].
  rewrite collect_ids. apply Permutation_refl.
Qed.

Lemma vectorSearch_In e query ids topK v :
  In v (vectorSearch e query ids topK) ->
  In (docId v) ids /\ JSMap.has e (docId v) = true.
Proof.
  destruct (vectorSearch_ids e query ids topK) as [hits [Hp ->]].
  intro Hv. apply slice0_In in Hv.
  apply (in_map docId) in Hv. apply (Permutation_in _ Hp) in Hv.
  now apply filter_In in Hv.
Qed.

Lemma vectorSearch_NoDup e query ids topK :
  NoDup ids -> NoDup (map docId (vectorSearch e query ids topK)).
Proof.
  intro Hnd. destruct (vectorSearch_ids e query ids topK) as [hits [Hp ->]].
  rewrite slice0_map. apply slice0_NoDup.
  apply (Permutation_NoDup (Permutation_sym Hp)).
  now apply NoDup_filter.
Qed.
End SearchFacts.

(* ------------------------------------------------------------------ *)
(** ** Fusion: what [combinedResults] holds under each key *)

Section FusionFacts.
Import VectorStore AdvancedKnowledgeBase.

Variable docs : list document.

Lemma keyed_empty : keyed docs [].
Proof. split; [constructor | intros k r []]. Qed.

Lemma keyed_set m k r :
  keyed docs m -> id (doc r) = k -> In (doc r) docs -> keyed docs (JSMap.set m k r).
Proof.
  intros [Hnd Hm] Hk Hr. split.
  - now apply Map_set_keys_NoDup.
  - intros k' r' Hin.
    apply In_get in Hin; [|now apply Map_set_keys_NoDup].
    change (JSMap.get (JSMap.set m k r) k' = Some r') in Hin.
    rewrite Map_get_set in Hin.
    destruct (String.eqb_spec k k') as [<-|_].
    + injection Hin as <-. now split.
    + apply Hm. now apply get_In.
Qed.

Lemma find_by_id (i : string) (d : document) :
  find (fun d => String.eqb (id d) i) docs = Some d -> In d docs /\ id d = i.
Proof.
  intro H. apply find_some in H as [Hin E]. split; auto.
  now apply String.eqb_eq.
Qed.

Lemma find_by_id_None (i : string) :
  (forall d, In d docs -> id d <> i) ->
  find (fun d => String.eqb (id d) i) docs = None.
Proof.
  intro H. destruct (find _ docs) as [d|] eqn:E; [|reflexivity].
  apply find_by_id in E as [Hin E]. now apply H in Hin.
Qed.

Lemma find_by_id_Some (i : string) :
  In i (map id docs) -> exists d, find (fun d => String.eqb (id d) i) docs = Some d.
Proof.
  intro H. destruct (find _ docs) as [d|] eqn:E; [now exists d|].
  apply in_map_iff in H as [d [Hd Hin]].
  apply (find_none _ _ E) in Hin. rewrite Hd, String.eqb_refl in Hin. discriminate.
Qed.

Lemma keyed_add_keyword m r :
  keyed docs m -> In (kr_doc r) docs -> keyed docs (add_keyword m r).
Proof. intros Hm Hr. unfold add_keyword. now apply keyed_set. Qed.

Lemma keyed_add_vector m v : keyed docs m -> keyed docs (add_vector docs m v).
Proof.
  intro Hm. unfold add_vector.
  destruct (find _ docs) as [d|] eqn:Hfind; [|exact Hm].
  apply find_by_id in Hfind as [Hd _].
  destruct (JSMap.get m (id d)) as [existing|] eqn:Hget.
  - apply get_In, (proj2 Hm) in Hget as [Hid Hin].
    now apply keyed_set.
  - now apply keyed_set.
Qed.

Lemma keyed_fuse keywordResults vectorResults :
  (forall r, In r keywordResults -> In (kr_doc r) docs) ->
  keyed docs (fuse docs keywordResults vectorResults).
Proof.
  intro HK. unfold fuse.
  assert (Hk : keyed docs (fold_left add_keyword keywordResults [])).
  { generalize keyed_empty. generalize (@nil (string * combined_result)).
    induction keywordResults as [|r K IH]; simpl; intros m Hm; [exact Hm|].
    apply IH.
    - intros r' Hr'. apply HK. now right.
    - apply keyed_add_keyword; auto. apply HK. now left. }
  revert Hk. generalize (fold_left add_keyword keywordResults []).
  induction vectorResults as [|v V IH]; simpl; intros m Hm; [exact Hm|].
  apply IH. now apply keyed_add_vector.
Qed.

Lemma keyed_ids m :
  keyed docs m -> map (fun r => id (doc r)) (JSMap.values m) = JSObject.keys m.
Proof.
  intros [_ Hm]. unfold JSMap.values, JSObject.keys.
  rewrite map_map. apply map_ext_in. intros [k r] Hin. simpl.
  now apply Hm.
Qed.

(** After the first loop an entry is the image of a keyword result. *)
Lemma add_keywords_get keywordResults m i r :
  JSMap.get (fold_left add_keyword keywordResults m) i = Some r ->
  (exists k, In k keywordResults /\ id (kr_doc k) = i /\ r = keyword_only k) \/
  JSMap.get m i = Some r.
Proof.
  revert m. induction keywordResults as [|k K IH]; simpl; intros m H; [now right|].
  apply IH in H as [[k' [Hin H]]|H].
  - left. exists k'. split; [now right | exact H].
  - unfold add_keyword in H. rewrite Map_get_set in H.
    destruct (String.eqb_spec (id (kr_doc k)) i) as [E|_]; [|now right].
    injection H as <-. left. exists k. split; [now left | now split].
Qed.

Lemma add_keywords_None keywordResults m i :
  JSMap.get (fold_left add_keyword keywordResults m) i = None ->
  JSMap.get m i = None /\ ~ In i (map (fun k => id (kr_doc k)) keywordResults).
Proof.
  revert m. induction keywordResults as [|k K IH]; simpl; intros m H; [tauto|].
  apply IH in H as [H Hout]. unfold add_keyword in H. rewrite Map_get_set in H.
  destruct (String.eqb_spec (id (kr_doc k)) i) as [E|Hne]; [discriminate|].
  tauto.
Qed.

(** After the second loop an entry is either left as the first loop made
    it, or was written by the one vector result that names its key. *)
Lemma add_vectors_get vectorResults m i r :
  NoDup (map docId vectorResults) ->
  JSMap.get (fold_left (add_vector docs) vectorResults m) i = Some r ->
  (JSMap.get m i = Some r /\
   forall v d, In v vectorResults ->
               find (fun d => String.eqb (id d) (docId v)) docs = Some d -> id d <> i) \/
  (exists v d, In v vectorResults /\
               find (fun d => String.eqb (id d) (docId v)) docs = Some d /\
               id d = i /\
               r = match JSMap.get m i with
                   | Some existing => blend existing v
                   | None => vector_only d v
                   end).
Proof.
  revert m. induction vectorResults as [|v V IH]; simpl; intros m Hnd H.
  - left. split; [exact H | intros v d []].
  - inversion Hnd as [|? ? Hv HndV]; subst.
    apply IH in H as [[Hget Hfree]|[v' [d' [Hin [Hfind [Hid Hr]]]]]]; auto.
    + unfold add_vector in Hget.
      destruct (find (fun d => String.eqb (id d) (docId v)) docs) as [d|] eqn:Hfind.
      * rewrite Map_get_set in Hget.
        destruct (String.eqb_spec (id d) i) as [E|Hne].
        -- right. exists v, d. subst i. injection Hget as <-.
           repeat split; auto.
        -- left. split; [exact Hget|].
           intros v0 d0 [<-|Hin0] Hf0; [congruence | now apply (Hfree v0)].
      * left. split; [exact Hget|].
        intros v0 d0 [<-|Hin0] Hf0; [congruence | now apply (Hfree v0)].
    + right. exists v', d'. repeat split; auto.
      rewrite Hr. unfold add_vector.
      destruct (find (fun d => String.eqb (id d) (docId v)) docs) as [d|] eqn:Hfindv;
        [|reflexivity].
      rewrite Map_get_set.
      destruct (String.eqb_spec (id d) i) as [E|_]; [|reflexivity].
      exfalso. apply Hv.
      apply find_by_id in Hfindv as [_ Ev]. apply find_by_id in Hfind as [_ Ev'].
      replace (docId v) with (docId v') by congruence.
      now apply in_map.
Qed.
End FusionFacts.

(* ------------------------------------------------------------------ *)
(** ** [hybridRetrieval] *)

Section HybridFacts.
Import VectorStore AdvancedKnowledgeBase.
Context {RX : RegExp.engine}.

Lemma or_zero_number (score : nat) : or_zero score = number_of_nat score.
Proof.
  unfold or_zero. destruct (Nat.eqb_spec score 0) as [->|_]; reflexivity.
Qed.

Lemma hybridRetrieval_Returns kb query maxResults out :
  hybridRetrieval kb query maxResults = Returns out ->
  exists keywordResults,
    keywordSearch (documents kb) query (maxResults * 2) = Returns keywordResults /\
    out = JSArray.slice0 maxResults
            (JSArray.sort by_combined
               (JSMap.values
                  (fuse (documents kb) keywordResults
                     (vectorSearch (vectorStore kb) query
                        (map id (documents kb)) (maxResults * 2))))).
Proof.
  unfold hybridRetrieval. intro H.
  apply bind_Returns in H as [K [HK H]]. injection H as <-.
  now exists K.
Qed.

Lemma hybridRetrieval_entry kb query maxResults out r :
  hybridRetrieval kb query maxResults = Returns out ->
  In r out ->
  exists keywordResults,
    keywordSearch (documents kb) query (maxResults * 2) = Returns keywordResults /\
    let m := fuse (documents kb) keywordResults
               (vectorSearch (vectorStore kb) query
                  (map id (documents kb)) (maxResults * 2)) in
    keyed (documents kb) m /\ JSMap.get m (id (doc r)) = Some r.
Proof.
  intros H Hr. apply hybridRetrieval_Returns in H as [K [HK ->]].
  exists K. split; [exact HK|]. cbv zeta.
  assert (Hkeyed : keyed (documents kb)
                     (fuse (documents kb) K
                        (vectorSearch (vectorStore kb) query
                           (map id (documents kb)) (maxResults * 2)))).
  { apply keyed_fuse. intros k Hk.
    now apply (keywordSearch_results _ _ _ _ _ HK). }
  split; [exact Hkeyed|].
  apply slice0_In, sort_In, Map_values_get in Hr as [key Hin].
  destruct Hkeyed as [Hnd Hm].
  destruct (Hm _ _ Hin) as [-> _].
  now apply In_get.
Qed.
End HybridFacts.

(* ------------------------------------------------------------------ *)
(** ** When the searches return *)

Lemma for_of_modelled {A S : Type} (body : S -> A -> outcome S) (l : list A) (s : S) :
  (forall s a, body s a <> Unmodelled) -> for_of body l s <> Unmodelled.
Proof.
  intro Hbody. revert s. induction l as [|a l IH]; intro s; cbn [for_of].
  - discriminate.
  - destruct (body s a) as [s1|e|] eqn:Hb; cbn [bind].
    + apply IH.
    + discriminate.
    + now apply Hbody in Hb.
Qed.

Lemma throws_SyntaxError {A : Type} (m : outcome A) :
  m <> Unmodelled -> ~ (exists a, m = Returns a) -> m = Throws SyntaxError.
Proof.
  destruct m as [a|[]|]; intros Hm Hr.
  - exfalso. apply Hr. now exists a.
  - reflexivity.
  - contradiction.
Qed.

Section Returning.
Import VectorStore AdvancedKnowledgeBase.
Context {RX : RegExp.engine}.

Lemma word_matches_Returns d score word score' :
  word_matches d score word = Returns score' ->
  2 < String.length word -> exists re, RegExp.construct word = Returns re.
Proof.
  unfold word_matches. intros H Hlen. apply Nat.ltb_lt in Hlen. rewrite Hlen in H.
  destruct (RegExp.construct word) as [re|e|]; cbn [bind] in H;
    [now exists re | discriminate | discriminate].
Qed.

Lemma word_matches_built d score word :
  (2 < String.length word -> exists re, RegExp.construct word = Returns re) ->
  exists score', word_matches d score word = Returns score'.
Proof.
  intro H. unfold word_matches.
  destruct (2 <? String.length word) eqn:Hlen; [|now eexists].
  apply Nat.ltb_lt in Hlen. destruct (H Hlen) as [re ->]. cbn [bind]. now eexists.
Qed.

Lemma word_matches_modelled d score word :
  answers RX -> word_matches d score word <> Unmodelled.
Proof.
  intro H. unfold word_matches.
  destruct (2 <? String.length word); [|discriminate].
  specialize (H word).
  destruct (RegExp.construct word) as [re|e|]; cbn [bind];
    [discriminate | discriminate | contradiction].
Qed.

Lemma word_loop_Returns d words score score' :
  for_of (word_matches d) words score = Returns score' ->
  forall word, In word words -> 2 < String.length word ->
               exists re, RegExp.construct word = Returns re.
Proof.
  revert score. induction words as [|w words IH]; intros score H word Hin Hlen;
    [contradiction|].
  cbn [for_of] in H. apply bind_Returns in H as [s1 [H1 H2]].
  destruct Hin as [<-|Hin].
  - now apply (word_matches_Returns d score w s1).
  - now apply (IH s1 H2).
Qed.

Lemma word_loop_built d words score :
  (forall word, In word words -> 2 < String.length word ->
                exists re, RegExp.construct word = Returns re) ->
  exists score', for_of (word_matches d) words score = Returns score'.
Proof.
  revert score. induction words as [|w words IH]; intros score H; cbn [for_of];
    [now eexists|].
  destruct (word_matches_built d score w) as [s1 ->]; [apply H; now left|].
  cbn [bind]. apply IH. intros word Hin. apply H. now right.
Qed.

Lemma scan_Returns queryLower results d results' :
  scan queryLower results d = Returns results' ->
  forall word, In word (JSString.split_spaces queryLower) -> 2 < String.length word ->
               exists re, RegExp.construct word = Returns re.
Proof.
  unfold scan. intro H. apply bind_Returns in H as [score [H _]].
  unfold score_of in H. cbv zeta in H.
  exact (word_loop_Returns _ _ _ _ H).
Qed.

Lemma scan_built queryLower results d :
  (forall word, In word (JSString.split_spaces queryLower) -> 2 < String.length word ->
                exists re, RegExp.construct word = Returns re) ->
  exists results', scan queryLower results d = Returns results'.
Proof.
  intro H. unfold scan, score_of. cbv zeta.
  match goal with
  | |- context [for_of (word_matches d) ?ws ?sc] =>
      destruct (word_loop_built d ws sc H) as [score ->]
  end.
  cbn [bind]. now eexists.
Qed.

Lemma scan_modelled queryLower results d :
  answers RX -> scan queryLower results d <> Unmodelled.
Proof.
  intro H. unfold scan, score_of. cbv zeta.
  match goal with
  | |- context [for_of (word_matches d) ?ws ?sc] =>
      pose proof (for_of_modelled (word_matches d) ws sc
                    (fun s a => word_matches_modelled d s a H)) as Hm;
      destruct (for_of (word_matches d) ws sc) as [score|e|]
  end; cbn [bind]; [discriminate | discriminate | contradiction].
Qed.

Lemma keywordSearch_Returns docs query maxResults results :
  docs <> [] -> keywordSearch docs query maxResults = Returns results -> builds query.
Proof.
  intros Hdocs H. unfold keywordSearch in H. cbv zeta in H.
  apply bind_Returns in H as [found [H _]].
  destruct docs as [|d docs]; [contradiction|].
  cbn [for_of] in H. apply bind_Returns in H as [s1 [H _]].
  exact (scan_Returns _ _ _ _ H).
Qed.

Lemma keywordSearch_built docs query maxResults :
  builds query -> exists results, keywordSearch docs query maxResults = Returns results.
Proof.
  intro H. unfold keywordSearch. cbv zeta.
  assert (Hloop : forall acc, exists found,
             for_of (scan (JSString.toLowerCase query)) docs acc = Returns found).
  { induction docs as [|d docs IH]; intro acc; cbn [for_of]; [now eexists|].
    destruct (scan_built (JSString.toLowerCase query) acc d H) as [s1 ->].
    cbn [bind]. apply IH. }
  destruct (Hloop []) as [found ->]. cbn [bind]. now eexists.
Qed.

Lemma keywordSearch_modelled docs query maxResults :
  answers RX -> keywordSearch docs query maxResults <> Unmodelled.
Proof.
  intro H. unfold keywordSearch. cbv zeta.
  pose proof (for_of_modelled (scan (JSString.toLowerCase query)) docs []
                (fun s a => scan_modelled _ s a H)) as Hm.
  destruct (for_of (scan (JSString.toLowerCase query)) docs []) as [found|e|];
    cbn [bind]; [discriminate | discriminate | contradiction].
Qed.

Lemma hybridRetrieval_keywordSearch kb query maxResults :
  (exists out, hybridRetrieval kb query maxResults = Returns out) <->
  (exists results, keywordSearch (documents kb) query (maxResults * 2) = Returns results).
Proof.
  unfold hybridRetrieval. split.
  - intros [out H]. apply bind_Returns in H as [K [HK _]]. now exists K.
  - intros [K ->]. cbn [bind]. now eexists.
Qed.

Lemma hybridRetrieval_modelled kb query maxResults :
  answers RX -> hybridRetrieval kb query maxResults <> Unmodelled.
Proof.
  intro H. unfold hybridRetrieval.
  pose proof (keywordSearch_modelled (documents kb) query (maxResults * 2) H) as Hm.
  destruct (keywordSearch (documents kb) query (maxResults * 2)) as [K|e|];
    cbn [bind]; [discriminate | discriminate | contradiction].
Qed.

Lemma keywordSearch_returns_iff docs query maxResults :
  docs <> [] ->
  (exists results, keywordSearch docs query maxResults = Returns results) <->
  builds query.
Proof.
  intro Hdocs. split.
  - intros [results H]. now apply (keywordSearch_Returns docs query maxResults results).
  - apply keywordSearch_built.
Qed.

Lemma hybridRetrieval_returns_iff kb query maxResults :
  documents kb <> [] ->
  (exists out, hybridRetrieval kb query maxResults = Returns out) <-> builds query.
Proof.
  intro Hdocs. rewrite hybridRetrieval_keywordSearch.
  now apply keywordSearch_returns_iff.
Qed.
End Returning.

(* ================================================================== *)
(** * The properties the specification states *)

Import VectorStore AdvancedKnowledgeBase.

(** C5.  For every corpus, query and [maxResults], and whatever regular
    expressions the query words are (the statement holds for every engine),
    whenever [hybridRetrieval] returns, no document id appears twice in the
    list it returns: the entries come out of a [Map] keyed by document id,
    and sorting and slicing only rearrange and drop them. *)
Theorem C5_no_duplicate_ids {RX : RegExp.engine} (kb : knowledge_base)
        (query : string) (maxResults : nat) (out : list combined_result) :
  hybridRetrieval kb query maxResults = Returns out ->
  NoDup (map (fun r => id (doc r)) out).
Proof.
  intro H. apply hybridRetrieval_Returns in H as [K [HK ->]].
  rewrite slice0_map. apply slice0_NoDup.
  eapply Permutation_NoDup.
  - apply Permutation_sym, Permutation_map, sort_perm.
  - assert (Hkeyed : keyed (documents kb)
                       (fuse (documents kb) K
                          (vectorSearch (vectorStore kb) query
                             (map id (documents kb)) (maxResults * 2)))).
    { apply keyed_fuse. intros k Hk.
      now apply (keywordSearch_results _ _ _ _ _ HK). }
    rewrite (keyed_ids _ _ Hkeyed). apply Hkeyed.
Qed.

Lemma C5_witness :
  exists out,
    hybridRetrieval Corpus.kb "alpha" 5 = Returns out /\
    NoDup (map (fun r => id (doc r)) out).
Proof.
  eexists. split.
  - vm_compute. reflexivity.
  - apply (C5_no_duplicate_ids (RX := RegExp.fragment) Corpus.kb "alpha" 5).
    vm_compute. reflexivity.
Defined.

(** C10.  For every engine: every entry [hybridRetrieval] returns carries a
    document of the live list [this.documents].  And the fusion drops a
    vector result that names no document, whatever the two result sets are:
    every entry of [combinedResults] carries a document of the list, no
    entry is stored under the [docId] of such a result, and the fusion is
    the one of the vector results without it. *)
Theorem C10_results_are_live_documents {RX : RegExp.engine} (kb : knowledge_base)
        (query : string) (maxResults : nat) (out : list combined_result) :
  hybridRetrieval kb query maxResults = Returns out ->
  (forall r, In r out -> In (doc r) (documents kb)) /\
  (forall keywordResults vectorResults,
      (forall k, In k keywordResults -> In (kr_doc k) (documents kb)) ->
      (forall r, In r (JSMap.values (fuse (documents kb) keywordResults vectorResults)) ->
                 In (doc r) (documents kb)) /\
      (forall before result after,
          vectorResults = before ++ result :: after ->
          (forall d, In d (documents kb) -> id d <> docId result) ->
          ~ In (docId result)
               (JSObject.keys (fuse (documents kb) keywordResults vectorResults)) /\
          fuse (documents kb) keywordResults vectorResults =
          fuse (documents kb) keywordResults (before ++ after))).
Proof.
  intro H. split.
  - intros r Hr.
    destruct (hybridRetrieval_entry _ _ _ _ _ H Hr) as [K [_ [Hkeyed Hget]]].
    apply get_In in Hget. now apply (proj2 Hkeyed) in Hget.
  - intros K V HK.
    assert (Hkeyed := keyed_fuse (documents kb) K V HK).
    split.
    + intros r Hr. apply Map_values_get in Hr as [k Hin].
      now apply (proj2 Hkeyed) in Hin.
    + intros V1 v V2 -> Hv. split.
      * intro Hin. apply in_map_iff in Hin as [[k r] [Ek Hin]]. simpl in Ek. subst k.
        destruct (proj2 Hkeyed _ _ Hin) as [Hid Hd].
        now apply (Hv _ Hd).
      * unfold fuse. rewrite !fold_left_app. cbn [fold_left].
        unfold add_vector at 2.
        now rewrite (find_by_id_None (documents kb) (docId v) Hv).
Qed.

Lemma C10_witness :
  exists out,
    hybridRetrieval Corpus.kb "beta" 1 = Returns out /\
    (forall r, In r out -> In (doc r) (documents Corpus.kb)) /\
    fuse (documents Corpus.kb) []
         [{| docId := "A"; similarity := 1%float |};
          {| docId := "gone"; similarity := 1%float |}] =
    fuse (documents Corpus.kb) [] [{| docId := "A"; similarity := 1%float |}].
Proof.
  eexists. split; [vm_compute; reflexivity|].
  destruct (C10_results_are_live_documents (RX := RegExp.fragment)
              Corpus.kb "beta" 1 _ eq_refl) as [H1 H2].
  split; [exact H1|].
  destruct (H2 [] [{| docId := "A"; similarity := 1%float |};
                   {| docId := "gone"; similarity := 1%float |}])
    as [_ H3]; [intros k []|].
  apply (H3 [{| docId := "A"; similarity := 1%float |}]
            {| docId := "gone"; similarity := 1%float |} [] eq_refl).
  intros d [<-|[<-|[]]]; discriminate.
Defined.

(** C4.  For every engine, over a corpus whose document ids are distinct,
    take any entry [r] of a list [hybridRetrieval] returns, and let
    [keywordResults] and [vectorResults] be the two result sets the call
    computed.
    - If the id of [r] is in both, [r] carries the relevance score of its
      keyword result as [keywordScore] and the similarity of its vector
      result as [vectorScore], and
      [combinedScore = keywordScore * 0.6 + vectorScore * 0.4].
    - If it is only in the keyword results, [combinedScore] is the keyword
      result's relevance score itself.
    - If it is only in the vector results, [combinedScore] is the vector
      result's similarity times 0.4. *)
Theorem C4_combined_score {RX : RegExp.engine} (kb : knowledge_base)
        (query : string) (maxResults : nat) (out : list combined_result)
        (r : combined_result) :
  NoDup (map id (documents kb)) ->
  hybridRetrieval kb query maxResults = Returns out ->
  In r out ->
  exists keywordResults,
    keywordSearch (documents kb) query (maxResults * 2) = Returns keywordResults /\
    let vectorResults :=
      vectorSearch (vectorStore kb) query (map id (documents kb)) (maxResults * 2) in
    let in_keyword := In (id (doc r)) (map (fun k => id (kr_doc k)) keywordResults) in
    let in_vector := In (id (doc r)) (map docId vectorResults) in
    (in_keyword -> in_vector ->
     exists k v,
       In k keywordResults /\ id (kr_doc k) = id (doc r) /\
       In v vectorResults /\ docId v = id (doc r) /\
       keywordScore r = number_of_nat (relevanceScore k) /\
       vectorScore r = similarity v /\
       combinedScore r =
         PrimFloat.add (PrimFloat.mul (keywordScore r) 0.6%float)
                       (PrimFloat.mul (vectorScore r) 0.4%float)) /\
    (in_keyword -> ~ in_vector ->
     exists k,
       In k keywordResults /\ id (kr_doc k) = id (doc r) /\
       combinedScore r = number_of_nat (relevanceScore k)) /\
    (~ in_keyword -> in_vector ->
     exists v,
       In v vectorResults /\ docId v = id (doc r) /\
       vectorScore r = similarity v /\
       combinedScore r = PrimFloat.mul (similarity v) 0.4%float).
Proof.
  intros Hids H Hr.
  destruct (hybridRetrieval_entry _ _ _ _ _ H Hr) as [K [HK [Hkeyed Hget]]].
  exists K. split; [exact HK|]. cbv zeta.
  set (V := vectorSearch (vectorStore kb) query (map id (documents kb)) (maxResults * 2)) in *.
  set (i := id (doc r)) in *.
  assert (HV : NoDup (map docId V)) by now apply vectorSearch_NoDup.
  (* a vector result that names [i] does write the entry under [i] *)
  assert (Htouch : In i (map docId V) ->
                   exists v d, In v V /\ docId v = i /\
                     find (fun d => String.eqb (id d) (docId v)) (documents kb) = Some d /\
                     id d = i).
  { intro Hin. apply in_map_iff in Hin as [v [Ev Hv]].
    destruct (vectorSearch_In _ _ _ _ _ Hv) as [Hcand _].
    destruct (find_by_id_Some (documents kb) _ Hcand) as [d Hd].
    exists v, d. repeat split; auto.
    apply find_by_id in Hd as [_ Hd]. congruence. }
  unfold fuse in Hget.
  apply add_vectors_get in Hget as [[Hget Hfree]|[v [d [Hv [Hfind [Hid Hr']]]]]]; auto.
  - (* the entry is as the keyword loop left it *)
    apply add_keywords_get in Hget as [[k [Hk [Hidk ->]]]|Hget]; [|discriminate].
    assert (Hnot : ~ In i (map docId V)).
    { intro Hin. destruct (Htouch Hin) as [v [d [Hv [_ [Hfind Hd]]]]].
      now apply (Hfree v d). }
    split; [|split].
    + intros _ Hin. contradiction.
    + intros _ _. exists k. repeat split; auto. simpl. apply or_zero_number.
    + intros Hout _. exfalso. apply Hout. rewrite <- Hidk.
      now apply (in_map (fun k => id (kr_doc k))).
  - (* the entry was written by the vector result [v] *)
    assert (Ev : docId v = i).
    { apply find_by_id in Hfind as [_ E]. congruence. }
    destruct (JSMap.get (fold_left add_keyword K []) i) as [existing|] eqn:Hk.
    + apply add_keywords_get in Hk as [[k [Hk [Hidk ->]]]|Hk]; [|discriminate].
      assert (HinK : In i (map (fun k => id (kr_doc k)) K)).
      { rewrite <- Hidk. now apply (in_map (fun k => id (kr_doc k))). }
      subst r. split; [|split].
      * intros _ _. exists k, v. simpl. repeat split; auto. apply or_zero_number.
      * intros _ Hout. exfalso. apply Hout. rewrite <- Ev. now apply in_map.
      * intros Hout _. contradiction.
    + apply add_keywords_None in Hk as [_ HoutK].
      subst r. split; [|split].
      * intros HinK _. contradiction.
      * intros HinK _. contradiction.
      * intros _ _. exists v. simpl. repeat split; auto.
Qed.

Lemma C4_witness :
  let out :=
    match hybridRetrieval Corpus.kb "alpha" 5 with Returns out => out | _ => [] end in
  let r := hd (vector_only Corpus.DocA {| docId := "A"; similarity := 0%float |}) out in
  NoDup (map id (documents Corpus.kb)) /\
  hybridRetrieval Corpus.kb "alpha" 5 = Returns out /\
  In r out /\
  keywordScore r = 14%float /\
  combinedScore r =
    PrimFloat.add (PrimFloat.mul (keywordScore r) 0.6%float)
                  (PrimFloat.mul (vectorScore r) 0.4%float).
Proof.
  cbv zeta.
  assert (H1 : NoDup (map id (documents Corpus.kb))).
  { vm_compute. repeat constructor; simpl; intuition discriminate. }
  assert (H2 : hybridRetrieval Corpus.kb "alpha" 5 =
               Returns match hybridRetrieval Corpus.kb "alpha" 5 with
                       | Returns out => out | _ => [] end).
  { vm_compute. reflexivity. }
  assert (H3 : In (hd (vector_only Corpus.DocA {| docId := "A"; similarity := 0%float |})
                      match hybridRetrieval Corpus.kb "alpha" 5 with
                      | Returns out => out | _ => [] end)
                  match hybridRetrieval Corpus.kb "alpha" 5 with
                  | Returns out => out | _ => [] end).
  { vm_compute. left. reflexivity. }
  split; [exact H1|]. split; [exact H2|]. split; [exact H3|].
  split; [vm_compute; reflexivity|].
  destruct (C4_combined_score (RX := RegExp.fragment) Corpus.kb "alpha" 5 _ _ H1 H2 H3)
    as [K [HK [Hboth _]]].
  vm_compute in HK. injection HK as <-.
  destruct Hboth as [k [v [_ [_ [_ [_ [_ [_ E]]]]]]]].
  - vm_compute. left. reflexivity.
  - vm_compute. left. reflexivity.
  - exact E.
Defined.

(* ------------------------------------------------------------------ *)
(** ** [keywordSearch] on the empty query *)

Lemma includes_empty (s : string) : JSString.includes s "" = true.
Proof. destruct s; reflexivity. Qed.

Lemma tags_empty_query (ts : list string) (score : nat) :
  fold_left
    (fun score tag =>
       if JSString.includes (JSString.toLowerCase tag) ""
       then score + 2 else score) ts score
  = score + 2 * length ts.
Proof.
  revert score. induction ts as [|t ts IH]; intro score; simpl fold_left.
  - simpl. lia.
  - rewrite includes_empty, IH. simpl length. lia.
Qed.

Lemma score_of_empty_query (d : document) :
  score_of "" d = Returns (8 + 2 * length (tags d)).
Proof.
  unfold score_of. rewrite !includes_empty, tags_empty_query. reflexivity.
Qed.

Lemma scan_empty_query (docs : list document) (acc : list keyword_result) :
  for_of (scan "") docs acc = Returns (acc ++ map empty_query_result docs).
Proof.
  revert acc. induction docs as [|d docs IH]; intro acc; cbn [for_of map].
  - now rewrite app_nil_r.
  - unfold scan at 1. rewrite score_of_empty_query. cbn [bind].
    change (0 <? 8 + 2 * length (tags d)) with true. cbv iota.
    rewrite IH, <- app_assoc. reflexivity.
Qed.

Lemma Map_set_not_empty {V : Type} (m : JSMap.t V) (k : string) (v : V) :
  JSMap.set m k v <> [].
Proof.
  unfold JSMap.set. destruct (JSMap.has m k) eqn:E.
  - destruct m as [|[k' v'] m]; [discriminate|].
    simpl. destruct (String.eqb k' k); discriminate.
  - destruct m; discriminate.
Qed.

Lemma add_keywords_not_empty keywordResults m :
  m <> [] -> fold_left add_keyword keywordResults m <> [].
Proof.
  revert m. induction keywordResults as [|k K IH]; simpl; intros m Hm; [exact Hm|].
  apply IH, Map_set_not_empty.
Qed.

Lemma add_vectors_not_empty docs vectorResults m :
  m <> [] -> fold_left (add_vector docs) vectorResults m <> [].
Proof.
  revert m. induction vectorResults as [|v V IH]; simpl; intros m Hm; [exact Hm|].
  apply IH. unfold add_vector. destruct (find _ docs); [|exact Hm].
  apply Map_set_not_empty.
Qed.

Lemma fuse_not_empty docs keywordResults vectorResults :
  keywordResults <> [] -> fuse docs keywordResults vectorResults <> [].
Proof.
  intro HK. unfold fuse. apply add_vectors_not_empty.
  destruct keywordResults as [|k K]; [contradiction|]. simpl.
  apply add_keywords_not_empty, Map_set_not_empty.
Qed.

Lemma length_not_empty {A : Type} (l : list A) : l <> [] <-> 0 < length l.
Proof. destruct l; simpl; split; intro H; try lia; congruence. Qed.

(** C1, as the code has it.  With the empty query every document contains
    the query in its title, in its content and in each tag, and no query
    word is longer than two characters: the keyword score of a document is
    [8 + 2 * (number of its tags)].  [keywordSearch] returns the first
    [maxResults] documents in descending order of that score, and
    [hybridRetrieval] returns a list, empty only when the corpus is empty or
    [maxResults] is 0.  Neither throws. *)
Theorem C1_empty_query (kb : knowledge_base) (maxResults : nat) :
  (forall d, score_of (JSString.toLowerCase "") d = Returns (8 + 2 * length (tags d))) /\
  keywordSearch (documents kb) "" maxResults =
    Returns (JSArray.slice0 maxResults
               (JSArray.sort by_relevance (map empty_query_result (documents kb)))) /\
  exists out,
    hybridRetrieval kb "" maxResults = Returns out /\
    length out <= maxResults /\
    (documents kb <> [] -> 0 < maxResults -> out <> []).
Proof.
  split; [exact score_of_empty_query|].
  assert (HK : forall n,
             keywordSearch (documents kb) "" n =
             Returns (JSArray.slice0 n
                        (JSArray.sort by_relevance
                           (map empty_query_result (documents kb))))).
  { intro n. unfold keywordSearch. change (JSString.toLowerCase "") with "".
    rewrite scan_empty_query. reflexivity. }
  split; [apply HK|].
  unfold hybridRetrieval. rewrite HK. simpl bind.
  eexists. split; [reflexivity|]. split.
  - rewrite slice0_length. lia.
  - intros Hdocs Hmax. apply length_not_empty.
    rewrite slice0_length, sort_length. unfold JSMap.values. rewrite length_map.
    apply Nat.min_glb_lt; [exact Hmax|].
    apply length_not_empty, fuse_not_empty, length_not_empty.
    rewrite slice0_length, sort_length, length_map.
    apply Nat.min_glb_lt; [lia|]. now apply length_not_empty.
Qed.

(** C1 as stated fails on the worked corpus: with the empty query Doc A
    scores 10, not 0, and neither search returns the empty list. *)
Lemma C1_counterexample :
  score_of (JSString.toLowerCase "") Corpus.DocA = Returns 10 /\
  keywordSearch (documents Corpus.kb) "" 5 <> Returns [] /\
  hybridRetrieval Corpus.kb "" 5 <> Returns [].
Proof.
  split; [reflexivity|]. split; vm_compute; discriminate.
Qed.

(* ------------------------------------------------------------------ *)
(** ** [keywordSearch] on query words that are not plain text *)

(** C2, at a query word with a wildcard.  The query [a.pha] occurs literally
    nowhere in Doc A (not in its title, its content or its tag), so the score
    the specification computes is 0 and Doc A is left out.  The code passes the word
    to [new RegExp], where [.] stands for any character: the word matches
    [alpha] once in the title and twice in the content, the score is
    [1 * 2 + 2 * 1 = 4], and Doc A is returned. *)
Theorem C2_query_word_is_a_pattern :
  JSString.includes (JSString.toLowerCase (title Corpus.DocA)) "a.pha" = false /\
  JSString.includes (JSString.toLowerCase (content Corpus.DocA)) "a.pha" = false /\
  existsb (fun tag => JSString.includes (JSString.toLowerCase tag) "a.pha")
          (tags Corpus.DocA) = false /\
  score_of (JSString.toLowerCase "a.pha") Corpus.DocA = Returns 4 /\
  keywordSearch [Corpus.DocA] "a.pha" 5 =
    Returns [{| kr_doc := Corpus.DocA; relevanceScore := 4 |}].
Proof. repeat split; vm_compute; reflexivity. Qed.

(** C3, at a query word that is no regular expression.  In [c++] the second
    [+] has nothing to repeat: [new RegExp] throws a SyntaxError on the first
    document scanned, and both searches throw instead of returning. *)
Theorem C3_query_word_is_no_pattern :
  RegExp.create "c++" = Throws SyntaxError /\
  keywordSearch (documents Corpus.kb) "c++" 5 = Throws SyntaxError /\
  hybridRetrieval Corpus.kb "c++" 5 = Throws SyntaxError.
Proof. repeat split; vm_compute; reflexivity. Qed.

(* ------------------------------------------------------------------ *)
(** ** [cosineSimilarity] *)

Lemma Set_of_In (l : list string) (x : string) : In x (Set_of l) <-> In x l.
Proof.
  induction l as [|y l IH]; simpl; [tauto|].
  rewrite filter_In, IH.
  destruct (String.eqb_spec y x) as [->|Hne]; simpl; [tauto|].
  intuition congruence.
Qed.

Lemma Set_of_NoDup (l : list string) : NoDup (Set_of l).
Proof.
  induction l as [|y l IH]; simpl; constructor.
  - rewrite filter_In, String.eqb_refl. simpl. intros [_ H]. discriminate.
  - now apply NoDup_filter.
Qed.

Lemma filter_all {A : Type} (f : A -> bool) (l : list A) :
  (forall x, In x l -> f x = true) -> filter f l = l.
Proof.
  induction l as [|y l IH]; simpl; intro H; [reflexivity|].
  rewrite (H y) by now left. f_equal. apply IH. intros x Hx. apply H. now right.
Qed.

Lemma filter_none {A : Type} (f : A -> bool) (l : list A) :
  (forall x, In x l -> f x = false) -> filter f l = [].
Proof.
  induction l as [|y l IH]; simpl; intro H; [reflexivity|].
  rewrite (H y) by now left. apply IH. intros x Hx. apply H. now right.
Qed.

Lemma Set_of_id (l : list string) : NoDup l -> Set_of l = l.
Proof.
  induction l as [|y l IH]; simpl; intro H; [reflexivity|].
  inversion H as [|? ? Hy Hl]; subst. rewrite (IH Hl). f_equal.
  apply filter_all. intros x Hx.
  destruct (String.eqb_spec y x) as [->|_]; [contradiction|reflexivity].
Qed.

Lemma Set_has_In (s : list string) (x : string) : Set_has s x = true <-> In x s.
Proof.
  unfold Set_has. rewrite existsb_exists. split.
  - intros [y [Hy E]]. apply String.eqb_eq in E. now subst.
  - intro H. exists x. split; [exact H | apply String.eqb_refl].
Qed.

Section CosineFacts.
Context {T : Type} `{Arithmetic T}.

(** On [(V, V)] the three sums are one and the same sum [s] of squares, and
    the result is [s / (sqrt s * sqrt s)]. *)
Lemma cosine_of_itself (V : JSObject.object T) :
  cosineSimilarity V V =
  let words := Set_of (JSObject.keys V) in
  let s := sum_over words (fun word => num_mul (weight V word) (weight V word)) in
  if length words =? 0 then num_zero
  else num_div s (num_mul (num_sqrt s) (num_sqrt s)).
Proof.
  unfold cosineSimilarity. cbv zeta.
  rewrite (filter_all (Set_has (Set_of (JSObject.keys V)))).
  - now rewrite (Set_of_id _ (Set_of_NoDup _)).
  - intros x Hx. now apply Set_has_In.
Qed.

Lemma cosineSimilarity_disjoint (vec1 vec2 : JSObject.object T) :
  (forall k, In k (JSObject.keys vec1) -> ~ In k (JSObject.keys vec2)) ->
  cosineSimilarity vec1 vec2 = num_zero.
Proof.
  intro Hd. unfold cosineSimilarity. cbv zeta.
  rewrite filter_none; [reflexivity|].
  intros x Hx. apply (proj1 (Set_of_In _ _)) in Hx.
  destruct (Set_has (Set_of (JSObject.keys vec2)) x) eqn:E; [|reflexivity].
  apply (proj1 (Set_has_In _ _)), (proj1 (Set_of_In _ _)) in E.
  now apply Hd in Hx.
Qed.
End CosineFacts.

(** C7.  When one of the two vectors has no key, or no key of the first is
    a key of the second, [commonWords] is empty and [cosineSimilarity]
    returns the number 0 before any division: the result is not NaN. *)
Theorem C7_degenerate_similarity (vec1 vec2 : JSObject.object float) :
  vec1 = [] \/ vec2 = [] \/
  (forall k, In k (JSObject.keys vec1) -> ~ In k (JSObject.keys vec2)) ->
  cosineSimilarity vec1 vec2 = 0%float /\
  PrimFloat.is_nan (cosineSimilarity vec1 vec2) = false.
Proof.
  intro H.
  assert (Hd : forall k, In k (JSObject.keys vec1) -> ~ In k (JSObject.keys vec2)).
  { destruct H as [->|[->|H]]; auto; intros k; simpl; tauto. }
  rewrite (cosineSimilarity_disjoint vec1 vec2 Hd). split; reflexivity.
Qed.

Lemma C7_witness :
  cosineSimilarity (vectorize "alpha beta") (vectorize "gamma delta") = 0%float /\
  PrimFloat.is_nan
    (cosineSimilarity (vectorize "alpha beta") (vectorize "gamma delta")) = false.
Proof.
  apply (C7_degenerate_similarity (vectorize "alpha beta") (vectorize "gamma delta")).
  right. right. vm_compute.
  intros k [<-|[<-|[]]] [E|[E|[]]]; discriminate E.
Defined.



(* ------------------------------------------------------------------ *)
(** ** [vectorize] and [vectorSearch] on the word [constructor] *)

(** C8, at a text that names a property of [Object.prototype].  The text
    [constructor] has one token, so the specification gives the vector
    [{constructor: 1}].  In the code [wordCount["constructor"]] first reads
    the inherited function [Object]; [(Object || 0) + 1] is a string; the
    string divided by [totalWords] is NaN.  The weight is NaN, which is not in
    [[0, 1]].  Likewise [__proto__] is a token of nine word characters but
    never becomes a key: the assignment of a primitive to
    [wordCount["__proto__"]] is ignored. *)
Theorem C8_vectorize_inherited_property :
  JSString.match_words (JSString.toLowerCase "constructor") = ["constructor"] /\
  vectorize "constructor" = [("constructor", PrimFloat.nan)] /\
  JSString.match_words (JSString.toLowerCase "__proto__") = ["__proto__"] /\
  vectorize "__proto__" = [].
Proof. repeat split; vm_compute; reflexivity. Qed.

(** C9, at a Vector Table with a NaN weight.  Of the three notes the third
    is the query itself (similarity 1), the first shares one of two words
    (similarity below 1), and the second holds the word [constructor], so its
    vector has a NaN weight and its similarity is NaN.  Every comparison with
    NaN is NaN, which the sort reads as a tie: the array is left in candidate
    order, the best match last, and with [topK = 2] it is cut off. *)
Theorem C9_vectorSearch_not_sorted :
  let found := vectorSearch Corpus.notes "alpha" ["n1"; "n2"; "n3"] 3 in
  map docId found = ["n1"; "n2"; "n3"] /\
  map (fun h => PrimFloat.is_nan (similarity h)) found = [false; true; false] /\
  map (fun h => PrimFloat.ltb (similarity h) 1%float) found = [true; false; false] /\
  map (fun h => PrimFloat.eqb (similarity h) 1%float) found = [false; false; true] /\
  map docId (vectorSearch Corpus.notes "alpha" ["n1"; "n2"; "n3"] 2) = ["n1"; "n2"].
Proof. cbv zeta. repeat split; vm_compute; reflexivity. Qed.

(* ================================================================== *)
(** * Further properties of the code *)

(* ------------------------------------------------------------------ *)
(** ** Query words that are plain text are counted literally *)

Section PlainWords.

Lemma plain_cons (c : ascii) (w : string) :
  plain (String c w) = plain_char c && plain w.
Proof. reflexivity. Qed.

Lemma plain_char_facts (c : ascii) :
  plain_char c = true ->
  RegExp.outside_fragment c = false /\
  RegExp.is_quantifier_symbol c = false /\
  RegExp.atom_of c = RegExp.Char c.
Proof.
  unfold plain_char, RegExp.atom_of. intro H.
  apply andb_prop in H as [H Hdot]. apply andb_prop in H as [Hout Hq].
  apply negb_true_iff in Hout, Hq, Hdot. rewrite Hdot. auto.
Qed.

Lemma parse_plain (w : string) :
  plain w = true -> RegExp.parse w = Some (literal w).
Proof.
  induction w as [|c w IH]; [reflexivity|].
  rewrite plain_cons. intro H. apply andb_prop in H as [Hc Hw].
  destruct (plain_char_facts c Hc) as [_ [Hq Hatom]].
  specialize (IH Hw). cbn [RegExp.parse]. rewrite Hq.
  destruct w as [|q w'].
  - unfold literal. simpl. now rewrite Hatom.
  - rewrite plain_cons in Hw. apply andb_prop in Hw as [Hq' _].
    destruct (plain_char_facts q Hq') as [_ [Hqq _]]. rewrite Hqq, IH.
    unfold literal. simpl. now rewrite Hatom.
Qed.

Lemma in_fragment_plain (w : string) :
  plain w = true -> RegExp.in_fragment w = true.
Proof.
  unfold plain, RegExp.in_fragment. rewrite !forallb_forall.
  intros H c Hc. now destruct (plain_char_facts c (H c Hc)) as [-> _].
Qed.

(** [new RegExp(word, "g")] on a plain word does not throw and compiles the
    word to the pattern that matches that text. *)
Lemma create_plain (w : string) :
  plain w = true -> RegExp.create w = Returns (literal w).
Proof.
  intro H. unfold RegExp.create.
  now rewrite (in_fragment_plain w H), (parse_plain w H).
Qed.

Lemma match_here_literal (w s : string) :
  RegExp.match_here (literal w) s =
  if JSString.startsWith s w then Some (drop (String.length w) s) else None.
Proof.
  revert s. induction w as [|c w IH]; intro s.
  - destruct s; reflexivity.
  - change (literal (String c w)) with ((RegExp.Char c, RegExp.Once) :: literal w).
    cbn [RegExp.match_here]. unfold RegExp.step, RegExp.atom_matches.
    destruct s as [|b s]; [reflexivity|].
    cbn [JSString.startsWith String.length drop].
    destruct (Ascii.eqb c b); [apply IH | reflexivity].
Qed.

Lemma startsWith_drop (w s : string) :
  JSString.startsWith s w = true ->
  String.length s - String.length (drop (String.length w) s) = String.length w.
Proof.
  revert s. induction w as [|c w IH]; intro s.
  - destruct s; simpl; lia.
  - destruct s as [|b s]; [discriminate|].
    cbn [JSString.startsWith String.length drop]. intro H.
    apply andb_prop in H as [_ H]. specialize (IH s H).
    assert (Hle : String.length (drop (String.length w) s) <= String.length s).
    { clear. revert s. induction (String.length w) as [|n IHn]; intros [|b s];
        simpl; auto. }
    lia.
Qed.

Lemma count_from_literal (w s : string) (skip : nat) :
  RegExp.count_from (literal w) s skip = occurrences_from w s skip.
Proof.
  revert skip. induction s as [|b s IH]; intro skip.
  - destruct skip; cbn [RegExp.count_from occurrences_from]; [|reflexivity].
    rewrite match_here_literal. now destruct (JSString.startsWith "" w).
  - destruct skip; cbn [RegExp.count_from occurrences_from]; [|apply IH].
    rewrite match_here_literal.
    destruct (JSString.startsWith (String b s) w) eqn:E; [|apply IH].
    rewrite (startsWith_drop w (String b s) E). f_equal. apply IH.
Qed.

Lemma match_count_literal (w s : string) :
  RegExp.match_count (literal w) s = occurrences w s.
Proof. apply count_from_literal. Qed.

Lemma word_matches_plain (d : document) (score : nat) (word : string) :
  (2 < String.length word -> plain word = true) ->
  word_matches d score word = Returns (score + word_score d word).
Proof.
  intro H. unfold word_matches, word_score.
  destruct (2 <? String.length word) eqn:E.
  - apply Nat.ltb_lt in E.
    change (RegExp.construct word) with (RegExp.create word).
    rewrite (create_plain word (H E)). cbn [bind].
    change (@RegExp.matches RegExp.fragment) with RegExp.match_count.
    now rewrite !match_count_literal.
  - f_equal. lia.
Qed.

Lemma word_loop_plain (d : document) (words : list string) (score : nat) :
  (forall word, In word words -> 2 < String.length word -> plain word = true) ->
  for_of (word_matches d) words score =
  Returns (score + list_sum (map (word_score d) words)).
Proof.
  revert score. induction words as [|w words IH]; intros score H; cbn [for_of].
  - simpl. f_equal. lia.
  - rewrite word_matches_plain by (apply H; now left). cbn [bind].
    rewrite IH by (intros w' Hw'; apply H; now right).
    simpl. f_equal. lia.
Qed.

Lemma tag_loop (q : string) (ts : list string) (score : nat) :
  fold_left
    (fun score tag =>
       if JSString.includes (JSString.toLowerCase tag) q then score + 2 else score)
    ts score
  = score +
    2 * length (filter (fun tag => JSString.includes (JSString.toLowerCase tag) q) ts).
Proof.
  revert score. induction ts as [|t ts IH]; intro score; cbn [fold_left filter].
  - simpl. lia.
  - rewrite IH. destruct (JSString.includes (JSString.toLowerCase t) q); simpl; lia.
Qed.

Lemma plain_query_score (query : string) (d : document) :
  plain_query query ->
  score_of (JSString.toLowerCase query) d = Returns (keyword_score query d).
Proof.
  intro H. unfold score_of, keyword_score. cbv zeta.
  rewrite tag_loop, word_loop_plain by exact H.
  f_equal.
  destruct (JSString.includes (JSString.toLowerCase (title d)) _),
           (JSString.includes (JSString.toLowerCase (content d)) _); lia.
Qed.

(** X1.  On a query whose words longer than two characters are plain text, the
    score [keywordSearch] computes for a document is the keyword score of the
    specification, and the regular expression built from each such word
    matches that text and nothing else. *)
Theorem score_of_plain_query (query : string) (d : document) :
  plain_query query ->
  score_of (JSString.toLowerCase query) d = Returns (keyword_score query d) /\
  forall word,
    In word (JSString.split_spaces (JSString.toLowerCase query)) ->
    2 < String.length word ->
    RegExp.create word = Returns (literal word) /\
    forall s, RegExp.match_count (literal word) s = occurrences word s.
Proof.
  intro H. split; [now apply plain_query_score|].
  intros word Hin Hlen. split.
  - apply create_plain. now apply H.
  - intro s. apply match_count_literal.
Qed.

Lemma score_of_plain_query_witness :
  score_of (JSString.toLowerCase "Alpha") Corpus.DocA
  = Returns (keyword_score "Alpha" Corpus.DocA).
Proof.
  assert (H : plain_query "Alpha") by (intros word [<-|[]] _; reflexivity).
  exact (proj1 (score_of_plain_query "Alpha" Corpus.DocA H)).
Defined.

(** X2.  The worked scenario: on the query [alpha] Doc A scores
    [5 + 3 + 2 + 1 * 2 + 2 * 1 = 14], Doc B scores 0, and [keywordSearch]
    returns Doc A alone. *)
Theorem worked_scenario :
  score_of (JSString.toLowerCase "alpha") Corpus.DocA = Returns 14 /\
  score_of (JSString.toLowerCase "alpha") Corpus.DocB = Returns 0 /\
  keywordSearch [Corpus.DocA; Corpus.DocB] "alpha" 5 =
    Returns [{| kr_doc := Corpus.DocA; relevanceScore := 14 |}].
Proof. repeat split; vm_compute; reflexivity. Qed.

(** X3.  On a query whose words longer than two characters are plain text,
    [keywordSearch] and [hybridRetrieval] return a list: neither throws. *)
Theorem searches_return_on_plain_query (kb : knowledge_base) (query : string)
        (maxResults : nat) :
  plain_query query ->
  (exists results, keywordSearch (documents kb) query maxResults = Returns results) /\
  (exists out, hybridRetrieval kb query maxResults = Returns out).
Proof.
  intro H.
  assert (HK : forall n, exists results,
               keywordSearch (documents kb) query n = Returns results).
  { intro n. unfold keywordSearch.
    assert (Hscan : forall docs acc, exists found,
                 for_of (scan (JSString.toLowerCase query)) docs acc = Returns found).
    { induction docs as [|d docs IH]; intro acc; cbn [for_of]; [now eexists|].
      unfold scan at 1. rewrite (plain_query_score query d H). cbn [bind].
      apply IH. }
    destruct (Hscan (documents kb) []) as [found ->]. cbn [bind]. now eexists. }
  split; [apply HK|].
  unfold hybridRetrieval. destruct (HK (maxResults * 2)) as [K ->].
  cbn [bind]. now eexists.
Qed.

Lemma searches_return_on_plain_query_witness :
  (exists results, keywordSearch (documents Corpus.kb) "beta gamma" 5 = Returns results) /\
  (exists out, hybridRetrieval Corpus.kb "beta gamma" 5 = Returns out).
Proof.
  apply (searches_return_on_plain_query Corpus.kb "beta gamma" 5).
  intros word [<-|[<-|[]]] _; reflexivity.
Defined.

End PlainWords.

(* ------------------------------------------------------------------ *)
(** ** Own properties: reading after [set] *)

Section ObjectFacts.
Context {V : Type}.
Implicit Types (o : JSObject.object V) (k : string) (v : V).

Lemma get_insert_index o n k v k' :
  JSObject.get o k = None ->
  JSObject.get (JSObject.insert_index n k v o) k' =
  if String.eqb k k' then Some v else JSObject.get o k'.
Proof.
  induction o as [|[k0 v0] o IH]; intro Hk; cbn [JSObject.insert_index]; [reflexivity|].
  cbn [JSObject.get] in Hk.
  destruct (String.eqb_spec k0 k) as [E|Hne]; [discriminate|].
  destruct (JSObject.array_index k0) as [n0|]; [|reflexivity].
  destruct (n0 <? n)%N; [|reflexivity].
  cbn [JSObject.get]. rewrite (IH Hk).
  destruct (String.eqb_spec k0 k') as [E0|_]; [|reflexivity].
  destruct (String.eqb_spec k k') as [E1|_]; [congruence | reflexivity].
Qed.

Lemma keys_insert_index o n k v x :
  In x (JSObject.keys (JSObject.insert_index n k v o)) <->
  x = k \/ In x (JSObject.keys o).
Proof.
  induction o as [|[k0 v0] o IH]; cbn [JSObject.insert_index].
  - simpl. intuition.
  - destruct (JSObject.array_index k0) as [n0|]; [|simpl; intuition].
    destruct (n0 <? n)%N; [|simpl; intuition].
    simpl. simpl in IH. rewrite IH. intuition.
Qed.

Lemma insert_index_NoDup o n k v :
  NoDup (JSObject.keys o) -> ~ In k (JSObject.keys o) ->
  NoDup (JSObject.keys (JSObject.insert_index n k v o)).
Proof.
  induction o as [|[k0 v0] o IH]; intros Hnd Hk; cbn [JSObject.insert_index].
  - simpl. repeat constructor. tauto.
  - assert (Hcons : NoDup (JSObject.keys ((k, v) :: (k0, v0) :: o)))
      by (simpl; constructor; assumption).
    destruct (JSObject.array_index k0) as [n0|]; [|exact Hcons].
    destruct (n0 <? n)%N; [|exact Hcons].
    simpl in *. inversion Hnd as [|? ? Hk0 Hnd']; subst. constructor.
    + intro Hin. apply keys_insert_index in Hin. intuition.
    + apply IH; tauto.
Qed.

(** [o[k']] after defining or overwriting the own property [k]. *)
Lemma get_set o k v k' :
  JSObject.get (JSObject.set o k v) k' =
  if String.eqb k k' then Some v else JSObject.get o k'.
Proof.
  unfold JSObject.set, JSObject.has.
  destruct (JSObject.get o k) eqn:E.
  - rewrite get_replace, E. reflexivity.
  - destruct (JSObject.array_index k) as [n|].
    + now apply get_insert_index.
    + rewrite get_app. simpl.
      destruct (String.eqb_spec k k') as [<-|_]; [now rewrite E|].
      now destruct (JSObject.get o k').
Qed.

Lemma set_NoDup o k v :
  NoDup (JSObject.keys o) -> NoDup (JSObject.keys (JSObject.set o k v)).
Proof.
  intro Hnd. unfold JSObject.set. destruct (JSObject.has o k) eqn:E.
  - now rewrite replace_keys.
  - assert (Hk : ~ In k (JSObject.keys o)).
    { intro Hin. apply has_true in Hin. congruence. }
    destruct (JSObject.array_index k) as [n|].
    + now apply insert_index_NoDup.
    + unfold JSObject.keys. rewrite map_app. apply NoDup_app; auto.
      * repeat constructor. simpl. tauto.
      * intros x Hx [<-|[]]. contradiction.
Qed.
End ObjectFacts.

(* ------------------------------------------------------------------ *)
(** ** [vectorize] on texts without an inherited property name *)

Section VectorizeFacts.

Lemma lookup_not_inherited (wordCount : JSObject.object count) (word : string) :
  inherited word = false ->
  lookup wordCount word =
  match JSObject.get wordCount word with Some c => Own c | None => Undefined end.
Proof.
  unfold inherited, lookup. intro H. apply orb_false_elim in H as [-> ->].
  reflexivity.
Qed.

Lemma assign_not_inherited {V : Type} (o : JSObject.object V) (k : string) (v : V) :
  inherited k = false -> JSObject.assign o k v = JSObject.set o k v.
Proof.
  unfold inherited, JSObject.assign. intro H.
  apply orb_false_elim in H as [_ ->]. reflexivity.
Qed.

Lemma count_word_counted (p : list string) (wordCount : JSObject.object count)
      (x : string) :
  inherited x = false ->
  NoDup (JSObject.keys wordCount) /\
  (forall w, JSObject.get wordCount w = counted p w) ->
  NoDup (JSObject.keys (count_word wordCount x)) /\
  (forall w, JSObject.get (count_word wordCount x) w = counted (p ++ [x]) w).
Proof.
  intros Hx [Hnd Hget]. unfold count_word.
  destruct (2 <? String.length x) eqn:Hlen.
  - rewrite assign_not_inherited, lookup_not_inherited by exact Hx.
    split; [now apply set_NoDup|].
    intro w. rewrite get_set, !Hget. unfold counted.
    rewrite count_occ_app. cbn [count_occ].
    destruct (String.eqb_spec x w) as [<-|Hne].
    + rewrite Hlen. destruct (string_dec x x) as [_|Hn]; [|contradiction].
      cbn [andb]. destruct (count_occ string_dec p x) as [|n] eqn:Hc.
      * reflexivity.
      * cbn [Nat.ltb Nat.leb or_zero_plus_one].
        replace (0 <? S n + 1) with true by (symmetry; apply Nat.ltb_lt; lia).
        reflexivity.
    + destruct (string_dec x w) as [E|_]; [contradiction|].
      now rewrite Nat.add_0_r.
  - split; [exact Hnd|].
    intro w. rewrite Hget. unfold counted.
    rewrite count_occ_app. cbn [count_occ].
    destruct (string_dec x w) as [<-|_]; [|now rewrite Nat.add_0_r].
    rewrite Hlen. reflexivity.
Qed.

Lemma count_words_counted (words p : list string) (wordCount : JSObject.object count) :
  (forall w, In w words -> inherited w = false) ->
  NoDup (JSObject.keys wordCount) /\
  (forall w, JSObject.get wordCount w = counted p w) ->
  NoDup (JSObject.keys (fold_left count_word words wordCount)) /\
  (forall w, JSObject.get (fold_left count_word words wordCount) w
             = counted (p ++ words) w).
Proof.
  revert p wordCount. induction words as [|x words IH]; intros p wc Hwords Hinv.
  - now rewrite app_nil_r.
  - cbn [fold_left].
    replace (p ++ x :: words) with ((p ++ [x]) ++ words)
      by (rewrite <- app_assoc; reflexivity).
    apply IH.
    + intros w Hw. apply Hwords. now right.
    + apply count_word_counted; [apply Hwords; now left | exact Hinv].
Qed.

Lemma weights_of_counts {A B : Type} (g : A -> B) (l : JSObject.object A)
      (acc : JSObject.object B) (w : string) :
  NoDup (JSObject.keys l) ->
  (forall k, In k (JSObject.keys l) -> inherited k = false) ->
  JSObject.get
    (fold_left (fun vector entry => JSObject.assign vector (fst entry) (g (snd entry)))
               l acc) w
  = match JSObject.get l w with
    | Some c => Some (g c)
    | None => JSObject.get acc w
    end.
Proof.
  revert acc. induction l as [|[k c] l IH]; intros acc Hnd Hk; [reflexivity|].
  cbn [fold_left fst snd JSObject.get].
  inversion Hnd as [|? ? Hout Hnd']; subst.
  rewrite IH; auto; [|intros k' Hk'; apply Hk; now right].
  rewrite assign_not_inherited by (apply Hk; now left).
  rewrite get_set.
  destruct (String.eqb_spec k w) as [<-|_]; [|reflexivity].
  apply get_None_keys in Hout. now rewrite Hout.
Qed.

Lemma weights_NoDup {A B : Type} (g : A -> B) (l : JSObject.object A)
      (acc : JSObject.object B) :
  NoDup (JSObject.keys acc) ->
  NoDup (JSObject.keys
           (fold_left (fun vector entry => JSObject.assign vector (fst entry) (g (snd entry)))
                      l acc)).
Proof.
  revert acc. induction l as [|[k c] l IH]; intros acc Hnd; [exact Hnd|].
  cbn [fold_left]. apply IH. unfold JSObject.assign.
  destruct (String.eqb (fst (k, c)) "__proto__"); [exact Hnd | now apply set_NoDup].
Qed.

Lemma vectorize_NoDup (text : string) : NoDup (JSObject.keys (vectorize text)).
Proof.
  unfold vectorize. cbv zeta.
  apply (weights_NoDup
           (fun c => PrimFloat.div (ToNumber c)
                       (number_of_nat
                          (length (JSString.match_words (JSString.toLowerCase text)))))).
  constructor.
Qed.

Lemma vectorize_get (text : string) (w : string) :
  (forall w, In w (JSString.match_words (JSString.toLowerCase text)) ->
             inherited w = false) ->
  let words := JSString.match_words (JSString.toLowerCase text) in
  let occurs := count_occ string_dec words w in
  JSObject.get (vectorize text) w =
    (if (2 <? String.length w) && (0 <? occurs)
     then Some (PrimFloat.div (number_of_nat occurs)
                              (number_of_nat (length words)))
     else None).
Proof.
  intros Hwords. cbv zeta.
  unfold vectorize. cbv zeta.
  set (words := JSString.match_words (JSString.toLowerCase text)) in *.
  destruct (count_words_counted words [] [] Hwords) as [Hnd Hget].
  { split; [apply NoDup_nil|].
    intro w0. unfold counted. cbn [count_occ]. now rewrite andb_false_r. }
  cbn [app] in Hget.
  rewrite (weights_of_counts
             (fun c => PrimFloat.div (ToNumber c) (number_of_nat (length words)))).
  - rewrite Hget. unfold counted.
    destruct ((2 <? String.length w) && (0 <? count_occ string_dec words w));
      reflexivity.
  - exact Hnd.
  - intros k Hk. apply has_true in Hk. unfold JSObject.has in Hk.
    rewrite Hget in Hk. unfold counted in Hk.
    destruct (2 <? String.length k); cbn [andb] in Hk; [|discriminate].
    destruct (0 <? count_occ string_dec words k) eqn:Hc; [|discriminate].
    apply Hwords. apply Nat.ltb_lt in Hc.
    now apply (count_occ_In string_dec).
Qed.

(** X5.  On a text none of whose tokens is [constructor] or [__proto__],
    [vectorize] returns the vector whose keys are the tokens longer than two
    characters, each with the quotient of its number of occurrences by the
    number of all tokens; that number of occurrences is at least 1 and at
    most the number of all tokens. *)
Theorem vectorize_weights (text : string) :
  (forall w, In w (JSString.match_words (JSString.toLowerCase text)) ->
             inherited w = false) ->
  forall w,
    let words := JSString.match_words (JSString.toLowerCase text) in
    let occurs := count_occ string_dec words w in
    JSObject.get (vectorize text) w =
      (if (2 <? String.length w) && (0 <? occurs)
       then Some (PrimFloat.div (number_of_nat occurs)
                                (number_of_nat (length words)))
       else None) /\
    occurs <= length words.
Proof.
  intros Hwords w. cbv zeta. split; [|apply count_occ_bound].
  now apply vectorize_get.
Qed.

Lemma vectorize_weights_witness :
  JSObject.get (vectorize "The cat and the hat") "the" =
    Some (PrimFloat.div (number_of_nat 2) (number_of_nat 5)) /\
  JSObject.get (vectorize "The cat and the hat") "a" = None.
Proof.
  assert (H : forall w,
             In w (JSString.match_words (JSString.toLowerCase "The cat and the hat")) ->
             inherited w = false).
  { vm_compute. intros w [<-|[<-|[<-|[<-|[<-|[]]]]]]; reflexivity. }
  split.
  - exact (proj1 (vectorize_weights "The cat and the hat" H "the")).
  - exact (proj1 (vectorize_weights "The cat and the hat" H "a")).
Defined.

End VectorizeFacts.

(* ------------------------------------------------------------------ *)
(** ** Sorting with a consistent comparator: ordered and stable *)

Section StableSort.
Context {A : Type} (before : A -> A -> bool).

Variable domain : list A.
Hypothesis Hconsistent : consistent before domain.

Local Abbreviation tie := (tie before).

Lemma before_asym (x y : A) :
  In x domain -> In y domain -> before x y = true -> before y x = false.
Proof.
  intros Hx Hy Hxy. destruct Hconsistent as [Hirr [Htrans _]].
  destruct (before y x) eqn:Hyx; [|reflexivity].
  rewrite <- (Hirr x Hx). symmetry. now apply (Htrans x y x).
Qed.

Lemma insert_In (x z : A) (acc : list A) :
  In z (JSArray.insert before x acc) <-> z = x \/ In z acc.
Proof.
  split; intro H.
  - apply (Permutation_in _ (insert_perm before x acc)) in H. simpl in H.
    intuition.
  - apply (Permutation_in _ (Permutation_sym (insert_perm before x acc))).
    simpl. intuition.
Qed.

(** The accumulator holds the sorted prefix last element first: nothing in
    it has to come before an element further back. *)
Lemma insert_sorted (x : A) (acc : list A) :
  In x domain -> incl acc domain ->
  StronglySorted (fun later earlier => before later earlier = false) acc ->
  StronglySorted (fun later earlier => before later earlier = false)
                 (JSArray.insert before x acc).
Proof.
  intros Hx. induction acc as [|y rest IH]; intros Hacc Hs; cbn [JSArray.insert].
  - repeat constructor.
  - apply StronglySorted_inv in Hs as [Hrest Hy].
    assert (Hyd : In y domain) by (apply Hacc; now left).
    assert (Hrd : incl rest domain) by (intros z Hz; apply Hacc; now right).
    destruct (before x y) eqn:Hxy.
    + constructor; [now apply IH|].
      apply Forall_forall. intros z Hz. apply insert_In in Hz as [->|Hz].
      * now apply before_asym.
      * now apply (proj1 (Forall_forall _ _) Hy).
    + constructor; [now constructor|].
      constructor; [exact Hxy|].
      apply Forall_forall. intros z Hz.
      destruct Hconsistent as [_ [_ Hneg]].
      apply (Hneg x y z); auto.
      now apply (proj1 (Forall_forall _ _) Hy).
Qed.

Lemma insert_stable (a x : A) (acc : list A) :
  In a domain -> In x domain -> incl acc domain ->
  filter (tie a) (rev (JSArray.insert before x acc)) =
  filter (tie a) (rev acc) ++ filter (tie a) [x].
Proof.
  intros Ha Hx. induction acc as [|y rest IH]; intro Hacc; cbn [JSArray.insert].
  - reflexivity.
  - assert (Hyd : In y domain) by (apply Hacc; now left).
    assert (Hrd : incl rest domain) by (intros z Hz; apply Hacc; now right).
    destruct (before x y) eqn:Hxy.
    + cbn [rev]. rewrite !filter_app, (IH Hrd), <- !app_assoc. f_equal.
      cbn [filter].
      destruct (tie a x) eqn:Tx, (tie a y) eqn:Ty; try reflexivity.
      exfalso. unfold tie in Tx, Ty.
      apply andb_prop in Tx as [_ Tx]. apply andb_prop in Ty as [Ty _].
      apply negb_true_iff in Tx, Ty.
      destruct Hconsistent as [_ [_ Hneg]].
      rewrite (Hneg x a y) in Hxy; auto. discriminate.
    + change (rev (x :: y :: rest)) with (rev (y :: rest) ++ [x]).
      now rewrite filter_app.
Qed.

Lemma insert_all_incl (l acc : list A) :
  incl l domain -> incl acc domain ->
  incl (fold_left (fun acc x => JSArray.insert before x acc) l acc) domain.
Proof.
  intros Hl Hacc z Hz.
  apply (Permutation_in _ (insert_all_perm before l acc)) in Hz.
  apply in_app_or in Hz as [Hz|Hz]; [apply Hl; now apply in_rev | now apply Hacc].
Qed.

Lemma insert_all_sorted (l acc : list A) :
  incl l domain -> incl acc domain ->
  StronglySorted (fun later earlier => before later earlier = false) acc ->
  StronglySorted (fun later earlier => before later earlier = false)
                 (fold_left (fun acc x => JSArray.insert before x acc) l acc).
Proof.
  revert acc. induction l as [|x l IH]; intros acc Hl Hacc Hs; cbn [fold_left]; auto.
  assert (Hx : In x domain) by (apply Hl; now left).
  apply IH.
  - intros z Hz. apply Hl. now right.
  - intros z Hz. apply insert_In in Hz as [->|Hz]; auto.
  - now apply insert_sorted.
Qed.

Lemma insert_all_stable (a : A) (l acc : list A) :
  In a domain -> incl l domain -> incl acc domain ->
  filter (tie a) (rev (fold_left (fun acc x => JSArray.insert before x acc) l acc)) =
  filter (tie a) (rev acc) ++ filter (tie a) l.
Proof.
  intro Ha. revert acc. induction l as [|x l IH]; intros acc Hl Hacc; cbn [fold_left].
  - now rewrite app_nil_r.
  - assert (Hx : In x domain) by (apply Hl; now left).
    rewrite IH.
    + rewrite insert_stable by assumption. rewrite <- app_assoc.
      now rewrite <- filter_app.
    + intros z Hz. apply Hl. now right.
    + intros z Hz. apply insert_In in Hz as [->|Hz]; auto.
Qed.

Lemma sorted_app (R : A -> A -> Prop) (l1 l2 : list A) :
  StronglySorted R l1 -> StronglySorted R l2 ->
  (forall x y, In x l1 -> In y l2 -> R x y) ->
  StronglySorted R (l1 ++ l2).
Proof.
  induction l1 as [|x l1 IH]; intros H1 H2 H12; cbn [app]; [exact H2|].
  apply StronglySorted_inv in H1 as [H1 Hx]. constructor.
  - apply IH; auto. intros y z Hy Hz. apply H12; [now right | exact Hz].
  - apply Forall_app. split; [exact Hx|].
    apply Forall_forall. intros z Hz. apply H12; [now left | exact Hz].
Qed.

Lemma sorted_rev (R : A -> A -> Prop) (l : list A) :
  StronglySorted R l -> StronglySorted (fun x y => R y x) (rev l).
Proof.
  induction l as [|x l IH]; intro Hs; cbn [rev]; [constructor|].
  apply StronglySorted_inv in Hs as [Hl Hx]. apply sorted_app.
  - now apply IH.
  - repeat constructor.
  - intros y z Hy [<-|[]]. apply in_rev in Hy.
    now apply (proj1 (Forall_forall _ _) Hx).
Qed.
End StableSort.

(** On a comparator that is consistent on the elements of [l], [sort]
    returns them with no element behind one it has to come before, and
    elements that tie in the order they had in [l]. *)
Theorem sort_ordered_and_stable {A : Type} (before : A -> A -> bool) (l : list A) :
  consistent before l ->
  StronglySorted (fun x y => before y x = false) (JSArray.sort before l) /\
  forall a, In a l ->
            filter (tie before a) (JSArray.sort before l) = filter (tie before a) l.
Proof.
  intro Hc. unfold JSArray.sort. split.
  - apply sorted_rev.
    apply (insert_all_sorted before l Hc); try apply incl_refl.
    + intros z [].
    + constructor.
  - intros a Ha.
    rewrite (insert_all_stable before l Hc a l []); auto using incl_refl.
    intros z [].
Qed.

Lemma sort_ordered_and_stable_witness :
  StronglySorted (fun x y => (x <? y) = false) (JSArray.sort (fun x y => y <? x) [1; 3; 2]) /\
  forall a, In a [1; 3; 2] ->
            filter (tie (fun x y => y <? x) a) (JSArray.sort (fun x y => y <? x) [1; 3; 2])
            = filter (tie (fun x y => y <? x) a) [1; 3; 2].
Proof.
  apply (sort_ordered_and_stable (fun x y => y <? x) [1; 3; 2]).
  repeat split.
  - intros x _. apply Nat.ltb_irrefl.
  - intros x y z _ _ _ H1 H2. apply Nat.ltb_lt in H1, H2. apply Nat.ltb_lt. lia.
  - intros x y z _ _ _ H1 H2. apply Nat.ltb_ge in H1, H2. apply Nat.ltb_ge. lia.
Defined.

(* ------------------------------------------------------------------ *)
(** ** The contract of [keywordSearch] on plain queries *)

Section KeywordContract.

Lemma by_relevance_consistent (l : list keyword_result) : consistent by_relevance l.
Proof.
  unfold by_relevance. repeat split.
  - intros x _. apply Nat.ltb_irrefl.
  - intros x y z _ _ _ H1 H2. apply Nat.ltb_lt in H1, H2. apply Nat.ltb_lt. lia.
  - intros x y z _ _ _ H1 H2. apply Nat.ltb_ge in H1, H2. apply Nat.ltb_ge. lia.
Qed.

Lemma tie_by_relevance (a r : keyword_result) :
  tie by_relevance a r = (relevanceScore r =? relevanceScore a).
Proof.
  unfold tie, by_relevance.
  destruct (Nat.ltb_spec (relevanceScore r) (relevanceScore a)),
           (Nat.ltb_spec (relevanceScore a) (relevanceScore r)),
           (Nat.eqb_spec (relevanceScore r) (relevanceScore a)); simpl; auto; lia.
Qed.

Lemma sorted_weaken {A : Type} (R R' : A -> A -> Prop) (l : list A) :
  (forall x y, R x y -> R' x y) -> StronglySorted R l -> StronglySorted R' l.
Proof.
  intros HR Hs. induction Hs as [|x l Hs IH Hx]; constructor; auto.
  apply Forall_forall. intros y Hy. apply HR.
  now apply (proj1 (Forall_forall _ _) Hx).
Qed.

Lemma scan_plain_query (query : string) (docs : list document)
      (acc : list keyword_result) :
  plain_query query ->
  for_of (scan (JSString.toLowerCase query)) docs acc =
  Returns (acc ++ matching query docs).
Proof.
  intro H. unfold matching. revert acc.
  induction docs as [|d docs IH]; intro acc; cbn [for_of filter map].
  - now rewrite app_nil_r.
  - unfold scan at 1. rewrite (plain_query_score query d H). cbn [bind].
    rewrite IH. destruct (0 <? keyword_score query d); [|reflexivity].
    cbn [map]. rewrite <- app_assoc. reflexivity.
Qed.

(** X4.  On a query whose words longer than two characters are plain text,
    [keywordSearch] returns the first [maxResults] of the documents with a
    positive keyword score, each with that score, sorted in descending order
    of score, documents of equal score in corpus order. *)
Theorem keywordSearch_plain_query (docs : list document) (query : string)
        (maxResults : nat) :
  plain_query query ->
  let ranked := JSArray.sort by_relevance (matching query docs) in
  keywordSearch docs query maxResults = Returns (JSArray.slice0 maxResults ranked) /\
  length (JSArray.slice0 maxResults ranked) <= maxResults /\
  StronglySorted (fun a b => relevanceScore b <= relevanceScore a) ranked /\
  forall score,
    filter (fun r => relevanceScore r =? score) ranked =
    filter (fun r => relevanceScore r =? score) (matching query docs).
Proof.
  intro H. cbv zeta.
  destruct (sort_ordered_and_stable by_relevance (matching query docs)
              (by_relevance_consistent _)) as [Hsorted Hstable].
  split; [|split; [|split]].
  - unfold keywordSearch. rewrite (scan_plain_query query docs [] H). reflexivity.
  - rewrite slice0_length. lia.
  - apply (sorted_weaken _ _ _ (fun x y => proj1 (Nat.ltb_ge _ _)) Hsorted).
  - intro score.
    destruct (existsb (fun r => relevanceScore r =? score) (matching query docs)) eqn:E.
    + apply existsb_exists in E as [a [Ha Ea]]. apply Nat.eqb_eq in Ea. subst score.
      rewrite <- (filter_ext _ _ (tie_by_relevance a)).
      rewrite <- (filter_ext _ _ (tie_by_relevance a)).
      now apply Hstable.
    + assert (Hnone : forall r, In r (matching query docs) ->
                                (relevanceScore r =? score) = false).
      { intros r Hr. destruct (relevanceScore r =? score) eqn:E'; [|reflexivity].
        rewrite <- E. symmetry. apply existsb_exists. now exists r. }
      rewrite !filter_none; auto.
      intros r Hr. apply Hnone. now apply sort_In in Hr.
Qed.

Lemma keywordSearch_plain_query_witness :
  keywordSearch (documents Corpus.kb) "beta" 1 =
    Returns (JSArray.slice0 1 (JSArray.sort by_relevance
                                 (matching "beta" (documents Corpus.kb)))) /\
  StronglySorted (fun a b => relevanceScore b <= relevanceScore a)
                 (JSArray.sort by_relevance (matching "beta" (documents Corpus.kb))).
Proof.
  assert (H : plain_query "beta") by (intros word [<-|[]] _; reflexivity).
  destruct (keywordSearch_plain_query (documents Corpus.kb) "beta" 1 H)
    as [H1 [_ [H3 _]]].
  split; [exact H1 | exact H3].
Defined.

End KeywordContract.

(* ------------------------------------------------------------------ *)
(** ** The contract of [vectorSearch] *)

Section VectorContract.

Lemma collect_hits e queryVector ids acc h :
  In h (fold_left (collect e queryVector) ids acc) ->
  In h acc \/
  (In (docId h) ids /\
   exists vec, JSMap.get e (docId h) = Some vec /\
               similarity h = cosineSimilarity queryVector vec).
Proof.
  revert acc. induction ids as [|i ids IH]; intros acc Hh; cbn [fold_left] in Hh.
  - now left.
  - apply IH in Hh as [Hh|[Hin Hvec]]; [|right; split; [now right | exact Hvec]].
    unfold collect in Hh. destruct (JSMap.get e i) as [vec|] eqn:Hget; [|now left].
    apply in_app_or in Hh as [Hh|[<-|[]]]; [now left|].
    right. split; [now left|]. now exists vec.
Qed.

(** X6.  [vectorSearch] returns at most [topK] pairs; each pairs a candidate id
    that has a vector with the similarity of the query to that vector; a
    candidate without a vector is left out; the pairs are collected in
    candidate order and the result is the first [topK] of them after
    sorting.  Whenever the comparator is consistent on the collected pairs,
    the sorted array has no pair behind one it has to come before, and pairs
    that tie are in candidate order. *)
Theorem vectorSearch_contract (e : embeddings) (query : string)
        (docIds : list string) (topK : nat) :
  let collected := fold_left (collect e (vectorize query)) docIds [] in
  let found := vectorSearch e query docIds topK in
  length found <= topK /\
  (forall h, In h found ->
     In (docId h) docIds /\
     exists vec, JSMap.get e (docId h) = Some vec /\
                 similarity h = cosineSimilarity (vectorize query) vec) /\
  (forall i, JSMap.get e i = None -> ~ In i (map docId found)) /\
  map docId collected = filter (JSMap.has e) docIds /\
  found = JSArray.slice0 topK (JSArray.sort by_similarity collected) /\
  (consistent by_similarity collected ->
   StronglySorted (fun a b => by_similarity b a = false)
                  (JSArray.sort by_similarity collected) /\
   forall a, In a collected ->
     filter (tie by_similarity a) (JSArray.sort by_similarity collected) =
     filter (tie by_similarity a) collected).
Proof.
  cbv zeta. split; [|split; [|split; [|split; [|split]]]].
  - unfold vectorSearch. rewrite slice0_length. lia.
  - intros h Hh. unfold vectorSearch in Hh.
    apply slice0_In, sort_In, collect_hits in Hh as [[]|Hh]. exact Hh.
  - intros i Hi Hin. apply in_map_iff in Hin as [h [<- Hh]].
    apply vectorSearch_In in Hh as [_ Hhas].
    unfold JSMap.has, JSObject.has, JSMap.get in *. now rewrite Hi in Hhas.
  - now rewrite collect_ids.
  - reflexivity.
  - apply sort_ordered_and_stable.
Qed.

End VectorContract.

(* ------------------------------------------------------------------ *)
(** ** [cosineSimilarity] of a vector with itself, in binary64 *)

(** X7.  On [(V, V)] the dot product and the two squared norms are one and the
    same sum [s] of squared weights over the keys of [V]; the method returns
    0 when [V] has no key and [s / (sqrt s * sqrt s)] otherwise. *)
Theorem cosineSimilarity_self (V : JSObject.object float) :
  let words := Set_of (JSObject.keys V) in
  let s :=
    fold_left
      (fun acc word => PrimFloat.add acc (PrimFloat.mul (weight V word) (weight V word)))
      words PrimFloat.zero in
  cosineSimilarity V V =
  if length words =? 0 then PrimFloat.zero
  else PrimFloat.div s (PrimFloat.mul (PrimFloat.sqrt s) (PrimFloat.sqrt s)).
Proof. exact (cosine_of_itself V). Qed.

(* ------------------------------------------------------------------ *)
(** ** [cosineSimilarity] of the vector of a short text with itself *)

Section ShortTexts.

Lemma list_sum_cons (x : nat) (l : list nat) : list_sum (x :: l) = x + list_sum l.
Proof. reflexivity. Qed.

Lemma all_close_sound (total : float) (cs : list nat) :
  forall fuel budget acc,
    cs <> [] -> Forall (fun c => 1 <= c) cs ->
    list_sum cs <= budget -> budget <= fuel ->
    all_close fuel total budget acc = true ->
    close_to_one (self_similarity (fold_left (add_square total) cs acc)) = true.
Proof.
  induction cs as [|c cs IH]; intros fuel budget acc Hne Hpos Hsum Hfuel Hall;
    [contradiction|].
  inversion Hpos as [|? ? Hc Hpos']; subst.
  rewrite list_sum_cons in Hsum.
  destruct fuel as [|fuel]; [lia|]. cbn [all_close] in Hall.
  rewrite forallb_forall in Hall.
  assert (Hin : In c (seq 1 budget)) by (apply in_seq; lia).
  apply Hall in Hin. cbv zeta in Hin. apply andb_prop in Hin as [H1 H2].
  cbn [fold_left]. destruct cs as [|c' cs]; [exact H1|].
  apply (IH fuel (budget - c)); auto; try discriminate; lia.
Qed.

Lemma count_occ_split (w : string) (words ks : list string) :
  list_sum (map (count_occ string_dec (w :: words)) ks) =
  list_sum (map (fun k => if string_dec w k then 1 else 0) ks) +
  list_sum (map (count_occ string_dec words) ks).
Proof.
  induction ks as [|k ks IH]; [reflexivity|].
  cbn [map]. rewrite !list_sum_cons, IH. cbn [count_occ].
  destruct (string_dec w k); lia.
Qed.

Lemma one_key (w : string) (ks : list string) :
  NoDup ks -> list_sum (map (fun k => if string_dec w k then 1 else 0) ks) <= 1.
Proof.
  induction ks as [|k ks IH]; intro Hnd; [simpl; lia|].
  inversion Hnd as [|? ? Hk Hnd']; subst.
  cbn [map]. rewrite list_sum_cons.
  destruct (string_dec w k) as [<-|_]; [|now apply IH].
  assert (E : list_sum (map (fun k => if string_dec w k then 1 else 0) ks) = 0).
  { clear IH Hnd Hnd'. induction ks as [|k ks IH]; [reflexivity|].
    cbn [map]. rewrite list_sum_cons.
    destruct (string_dec w k) as [->|_]; [exfalso; apply Hk; now left|].
    apply IH. intro Hin. apply Hk. now right. }
  lia.
Qed.

(** Distinct keys count disjoint sets of tokens. *)
Lemma count_occ_sum (words ks : list string) :
  NoDup ks -> list_sum (map (count_occ string_dec words) ks) <= length words.
Proof.
  intro Hnd. induction words as [|w words IH].
  - clear Hnd. induction ks as [|k ks IHk]; [simpl; lia|].
    cbn [map]. rewrite list_sum_cons. cbn [count_occ length] in *. lia.
  - rewrite count_occ_split. pose proof (one_key w ks Hnd). cbn [length]. lia.
Qed.

Lemma sum_of_squares (V : JSObject.object float) (total : float)
      (count : string -> nat) (ks : list string) (acc : float) :
  (forall k, In k ks ->
             JSObject.get V k = Some (PrimFloat.div (number_of_nat (count k)) total)) ->
  fold_left (fun acc word => PrimFloat.add acc (PrimFloat.mul (weight V word) (weight V word)))
            ks acc =
  fold_left (add_square total) (map count ks) acc.
Proof.
  revert acc. induction ks as [|k ks IH]; intros acc H; [reflexivity|].
  cbn [fold_left map]. rewrite IH by (intros k' Hk'; apply H; now right).
  f_equal. unfold add_square, weight. rewrite (H k) by now left. reflexivity.
Qed.

(** What compares with a number is not NaN. *)
Lemma leb_not_nan (x r : float) :
  PrimFloat.leb x r = true -> PrimFloat.is_nan r = false.
Proof.
  rewrite leb_spec. unfold PrimFloat.is_nan. rewrite eqb_spec.
  unfold SpecFloat.SFleb, SpecFloat.SFeqb. destruct (FloatOps.Prim2SF r) as [s|s| |s m e].
  - intros _. reflexivity.
  - intros _. destruct s; reflexivity.
  - destruct (FloatOps.Prim2SF x) as [s'|s'| |s' m' e']; cbn; discriminate.
  - intros _. cbn. destruct s; rewrite Z.compare_refl, Pos.compare_cont_refl; reflexivity.
Qed.

Lemma all_close_up_to_sound (most n : nat) :
  all_close_up_to most = true ->
  1 <= n <= most -> all_close n (number_of_nat n) n PrimFloat.zero = true.
Proof.
  unfold all_close_up_to. intros Hall Hn.
  apply (proj1 (forallb_forall _ _) Hall). apply in_seq. lia.
Qed.

Lemma all_close_20 : all_close_up_to 20 = true.
Proof. vm_compute. reflexivity. Qed.

(** X24.  For a text of at most 20 tokens, none of them [constructor] or
    [__proto__] and one of them longer than two characters, the similarity
    of its vector to itself, as [cosineSimilarity] computes it in binary64,
    is a number that differs from 1 by at most 2^-52.  (Checked by
    enumeration of the frequency tables such a text can have.) *)
Theorem cosineSimilarity_self_short_text (text : string) :
  let words := JSString.match_words (JSString.toLowerCase text) in
  (forall w, In w words -> inherited w = false) ->
  (exists w, In w words /\ 2 < String.length w) ->
  length words <= 20 ->
  let r := cosineSimilarity (vectorize text) (vectorize text) in
  PrimFloat.is_nan r = false /\
  PrimFloat.leb (PrimFloat.sub 1%float 0x1p-52%float) r = true /\
  PrimFloat.leb r (PrimFloat.add 1%float 0x1p-52%float) = true.
Proof.
  intros words Hwords [w0 [Hw0 Hlen0]] Hshort. cbv zeta.
  match goal with
  | |- _ /\ ?P /\ ?Q =>
      cut (P /\ Q);
      [intros [H1 H2]; split; [exact (leb_not_nan _ _ H1) | now split]|]
  end.
  rewrite cosine_of_itself. cbv zeta.
  rewrite (Set_of_id _ (vectorize_NoDup text)).
  set (ks := JSObject.keys (vectorize text)).
  assert (Hkeys : forall k, In k ks ->
             JSObject.get (vectorize text) k =
               Some (PrimFloat.div (number_of_nat (count_occ string_dec words k))
                                   (number_of_nat (length words))) /\
             1 <= count_occ string_dec words k).
  { intros k Hk. apply has_true in Hk. unfold JSObject.has in Hk.
    pose proof (vectorize_get text k Hwords) as Hget. cbv zeta in Hget.
    fold words in Hget. rewrite Hget in Hk |- *.
    destruct ((2 <? String.length k) && (0 <? count_occ string_dec words k)) eqn:Hc;
      [|discriminate].
    apply andb_prop in Hc as [_ Hc]. apply Nat.ltb_lt in Hc. now split. }
  assert (Hw0k : In w0 ks).
  { apply has_true. unfold JSObject.has.
    pose proof (vectorize_get text w0 Hwords) as Hget. cbv zeta in Hget.
    fold words in Hget. rewrite Hget.
    replace (2 <? String.length w0) with true by (symmetry; now apply Nat.ltb_lt).
    replace (0 <? count_occ string_dec words w0) with true; [reflexivity|].
    symmetry. apply Nat.ltb_lt. now apply (count_occ_In string_dec). }
  destruct (Nat.eqb_spec (length ks) 0) as [E|_].
  { destruct ks; [contradiction | discriminate E]. }
  unfold sum_over. cbn [num_add num_mul num_div num_sqrt num_zero binary64].
  rewrite (sum_of_squares (vectorize text) (number_of_nat (length words))
             (count_occ string_dec words) ks)
    by (intros k Hk; apply (Hkeys k Hk)).
  apply andb_prop.
  change (close_to_one
            (self_similarity
               (fold_left (add_square (number_of_nat (length words)))
                          (map (count_occ string_dec words) ks) PrimFloat.zero)) = true).
  apply (all_close_sound _ _ (length words) (length words)).
  - destruct ks; [contradiction | discriminate].
  - apply Forall_forall. intros c Hc. apply in_map_iff in Hc as [k [<- Hk]].
    apply (Hkeys k Hk).
  - apply count_occ_sum. apply vectorize_NoDup.
  - apply Nat.le_refl.
  - apply (all_close_up_to_sound 20 _ all_close_20).
    assert (0 < length words) by (destruct words; [contradiction | simpl; lia]).
    lia.
Qed.

Lemma cosineSimilarity_self_short_text_witness :
  PrimFloat.is_nan
    (cosineSimilarity (vectorize "The cat and the hat") (vectorize "The cat and the hat"))
  = false /\
  PrimFloat.leb (PrimFloat.sub 1%float 0x1p-52%float)
    (cosineSimilarity (vectorize "The cat and the hat") (vectorize "The cat and the hat"))
  = true /\
  PrimFloat.leb
    (cosineSimilarity (vectorize "The cat and the hat") (vectorize "The cat and the hat"))
    (PrimFloat.add 1%float 0x1p-52%float) = true.
Proof.
  apply (cosineSimilarity_self_short_text "The cat and the hat").
  - vm_compute. intros w [<-|[<-|[<-|[<-|[<-|[]]]]]]; reflexivity.
  - exists "the". split; [vm_compute; now left | vm_compute; lia].
  - vm_compute. lia.
Defined.

End ShortTexts.

(* ------------------------------------------------------------------ *)
(** ** The size of the result *)

(** X8.  For every engine, a list [hybridRetrieval] returns has at most
    [maxResults] entries; with [maxResults = 0] it is empty, whatever the
    corpus. *)
Theorem hybridRetrieval_bounds {RX : RegExp.engine} (kb : knowledge_base)
        (query : string) (maxResults : nat) (out : list combined_result) :
  hybridRetrieval kb query maxResults = Returns out ->
  length out <= maxResults /\ (maxResults = 0 -> out = []).
Proof.
  intro H. apply hybridRetrieval_Returns in H as [K [_ ->]]. split.
  - rewrite slice0_length. lia.
  - intros ->. reflexivity.
Qed.

Lemma hybridRetrieval_bounds_witness :
  exists out,
    hybridRetrieval Corpus.kb "alpha beta" 1 = Returns out /\ length out <= 1.
Proof.
  eexists. split; [vm_compute; reflexivity|].
  exact (proj1 (hybridRetrieval_bounds (RX := RegExp.fragment)
                  Corpus.kb "alpha beta" 1 _ eq_refl)).
Defined.

(* ------------------------------------------------------------------ *)
(** ** The ranking of [hybridRetrieval] *)

Lemma slice0_sorted {A : Type} (R : A -> A -> Prop) (n : nat) (l : list A) :
  StronglySorted R l -> StronglySorted R (JSArray.slice0 n l).
Proof.
  unfold JSArray.slice0. revert l.
  induction n as [|n IH]; intros [|x l] H; cbn [firstn]; try constructor.
  - apply IH. now inversion H.
  - inversion H as [|? ? _ Hx]; subst. apply Forall_forall. intros y Hy.
    apply (slice0_In n l y) in Hy. now apply (proj1 (Forall_forall _ _) Hx).
Qed.

Lemma filter_slice0 {A : Type} (f : A -> bool) (n : nat) (l : list A) :
  exists k, filter f (JSArray.slice0 n l) = JSArray.slice0 k (filter f l).
Proof.
  unfold JSArray.slice0. revert l.
  induction n as [|n IH]; intros [|x l]; cbn [firstn filter];
    try (exists 0; reflexivity).
  destruct (IH l) as [k Hk]. destruct (f x).
  - exists (S k). cbn [firstn]. now rewrite Hk.
  - now exists k.
Qed.

Lemma sorted_between {A : Type} (R : A -> A -> Prop) (l1 l2 : list A) (a b : A) :
  StronglySorted R (l1 ++ l2) -> In a l1 -> In b l2 -> R a b.
Proof.
  induction l1 as [|x l1 IH]; cbn [app]; intros H Ha Hb; [contradiction|].
  inversion H as [|? ? Hs Hx]; subst. destruct Ha as [->|Ha]; [|now apply IH].
  apply (proj1 (Forall_forall _ _) Hx). apply in_or_app. now right.
Qed.

(** X9.  For every engine, take a list [hybridRetrieval] returns and the
    fused entries it was cut from.  Whenever the comparator
    [b.combinedScore - a.combinedScore] is consistent on the fused entries,
    the list is in ranking order: no entry stands behind one it has to come
    before; no entry that was cut off has to come before one that was kept;
    and the entries that tie with a given one stand in the order in which
    the [Map] holds them, the kept ones being the first of them. *)
Theorem hybridRetrieval_ranking {RX : RegExp.engine} (kb : knowledge_base)
        (query : string) (maxResults : nat) (out : list combined_result) :
  hybridRetrieval kb query maxResults = Returns out ->
  exists keywordResults,
    keywordSearch (documents kb) query (maxResults * 2) = Returns keywordResults /\
    let entries :=
      JSMap.values
        (fuse (documents kb) keywordResults
              (vectorSearch (vectorStore kb) query (map id (documents kb))
                            (maxResults * 2))) in
    (forall r, In r out -> In r entries) /\
    (consistent by_combined entries ->
     StronglySorted (fun a b => by_combined b a = false) out /\
     (forall kept cut, In kept out -> In cut entries -> ~ In cut out ->
                       by_combined cut kept = false) /\
     (forall a, In a entries ->
        exists n, filter (tie by_combined a) out =
                  JSArray.slice0 n (filter (tie by_combined a) entries))).
Proof.
  intro H. apply hybridRetrieval_Returns in H as [K [HK ->]].
  exists K. split; [exact HK|]. cbv zeta.
  set (entries := JSMap.values _).
  split.
  - intros r Hr. now apply slice0_In, sort_In in Hr.
  - intro Hc.
    destruct (sort_ordered_and_stable by_combined entries Hc) as [Hsorted Hstable].
    split; [|split].
    + now apply slice0_sorted.
    + intros kept cut Hkept Hcut Hout.
      apply (sorted_between (fun a b => by_combined b a = false)
               (firstn maxResults (JSArray.sort by_combined entries))
               (skipn maxResults (JSArray.sort by_combined entries))).
      * now rewrite firstn_skipn.
      * exact Hkept.
      * apply (sort_In by_combined) in Hcut.
        rewrite <- (firstn_skipn maxResults) in Hcut.
        apply in_app_or in Hcut as [Hcut|Hcut]; [contradiction | exact Hcut].
    + intros a Ha.
      destruct (filter_slice0 (tie by_combined a) maxResults
                  (JSArray.sort by_combined entries)) as [n Hn].
      exists n. now rewrite Hn, (Hstable a Ha).
Qed.

Lemma hybridRetrieval_ranking_witness :
  exists out,
    hybridRetrieval Corpus.kb "alpha" 1 = Returns out /\
    StronglySorted (fun a b => by_combined b a = false) out /\
    map (fun r => id (doc r)) out = ["A"].
Proof.
  eexists. split; [vm_compute; reflexivity|].
  destruct (hybridRetrieval_ranking (RX := RegExp.fragment) Corpus.kb "alpha" 1 _ eq_refl)
    as [K [HK [_ Hrank]]].
  vm_compute in HK. injection HK as <-.
  split; [|reflexivity].
  apply Hrank. cbv zeta. vm_compute JSMap.values.
  repeat split.
  - intros x [<-|[<-|[]]]; vm_compute; reflexivity.
  - intros x y z [<-|[<-|[]]] [<-|[<-|[]]] [<-|[<-|[]]]; vm_compute;
      congruence.
  - intros x y z [<-|[<-|[]]] [<-|[<-|[]]] [<-|[<-|[]]]; vm_compute;
      congruence.
Defined.

(* ------------------------------------------------------------------ *)
(** ** When the searches return, and when they throw *)

(** X23.  For every engine.  On the empty corpus both searches return the
    empty list, whatever the query.  On a corpus with a document, each
    returns exactly when the engine builds a regular expression from every
    word of the case-folded query that is longer than two characters; and
    when the engine answers every pattern, as [new RegExp] does, each throws
    a SyntaxError otherwise.  [maxResults] plays no part. *)
Theorem searches_return_exactly {RX : RegExp.engine} (kb : knowledge_base)
        (query : string) (maxResults : nat) :
  (documents kb = [] ->
   keywordSearch (documents kb) query maxResults = Returns [] /\
   hybridRetrieval kb query maxResults = Returns []) /\
  (documents kb <> [] ->
   ((exists results, keywordSearch (documents kb) query maxResults = Returns results)
    <-> builds query) /\
   ((exists out, hybridRetrieval kb query maxResults = Returns out)
    <-> builds query) /\
   (answers RX -> ~ builds query ->
    keywordSearch (documents kb) query maxResults = Throws SyntaxError /\
    hybridRetrieval kb query maxResults = Throws SyntaxError)).
Proof.
  split.
  - intro Hdocs. unfold hybridRetrieval, keywordSearch, vectorSearch.
    rewrite Hdocs. cbn. unfold JSArray.slice0. rewrite ?firstn_nil. cbn.
    rewrite ?firstn_nil. split; reflexivity.
  - intro Hdocs.
    pose proof (keywordSearch_returns_iff (documents kb) query maxResults Hdocs) as HK.
    pose proof (hybridRetrieval_returns_iff kb query maxResults Hdocs) as HH.
    split; [exact HK|]. split; [exact HH|].
    intros Ha Hb. split; apply throws_SyntaxError.
    + now apply keywordSearch_modelled.
    + intro Hr. now apply Hb, HK.
    + now apply hybridRetrieval_modelled.
    + intro Hr. now apply Hb, HH.
Qed.

Lemma searches_return_exactly_witness :
  (exists out, hybridRetrieval Corpus.kb "beta gamma" 5 = Returns out) /\
  ~ builds (RX := RegExp.fragment) "c++".
Proof.
  assert (Hdocs : documents Corpus.kb <> []) by discriminate.
  split.
  - destruct (searches_return_exactly (RX := RegExp.fragment) Corpus.kb "beta gamma" 5)
      as [_ H].
    apply (proj1 (proj2 (H Hdocs))).
    intros word [<-|[<-|[]]] _; eexists; vm_compute; reflexivity.
  - destruct (searches_return_exactly (RX := RegExp.fragment) Corpus.kb "c++" 5)
      as [_ H].
    intro Hb. apply (proj1 (proj2 (H Hdocs))) in Hb as [out Hout].
    vm_compute in Hout. discriminate Hout.
Defined.

(* ================================================================== *)
(** * Properties of the methods around the core *)

Import Invariants.

(* ------------------------------------------------------------------ *)
(** ** Trimming and splitting *)

Section TrimFacts.

Lemma trimStart_head (s : string) :
  JSString.head_is JSString.is_space (JSStringOps.trimStart s) = false.
Proof.
  induction s as [|c s IH]; [reflexivity|]. cbn [JSStringOps.trimStart].
  destruct (JSString.is_space c) eqn:E; [exact IH|]. exact E.
Qed.

Lemma trimStart_blank (s : string) :
  JSStringOps.trimStart s = EmptyString <-> blank s = true.
Proof.
  unfold blank. induction s as [|c s IH]; cbn; [tauto|].
  destruct (JSString.is_space c); cbn; [exact IH|].
  split; discriminate.
Qed.

Lemma trimEnd_end (s : string) : ends_with_space (JSStringOps.trimEnd s) = false.
Proof.
  induction s as [|c s IH]; [reflexivity|]. cbn [JSStringOps.trimEnd].
  destruct (JSString.is_space c) eqn:E;
    destruct (JSStringOps.trimEnd s) as [|b t] eqn:Et; cbn; auto.
Qed.

Lemma trimEnd_head (s : string) :
  JSString.head_is JSString.is_space s = false ->
  JSString.head_is JSString.is_space (JSStringOps.trimEnd s) = false.
Proof.
  destruct s as [|c s]; [reflexivity|]. cbn. intro H. rewrite H. cbn. exact H.
Qed.

Lemma trimEnd_empty (s : string) :
  JSString.head_is JSString.is_space s = false ->
  JSStringOps.trimEnd s = EmptyString -> s = EmptyString.
Proof.
  destruct s as [|c s]; [reflexivity|]. cbn. intro H. rewrite H. cbn. discriminate.
Qed.

Lemma trim_blank (s : string) :
  JSStringOps.trim s = EmptyString <-> blank s = true.
Proof.
  unfold JSStringOps.trim. rewrite <- trimStart_blank. split.
  - apply trimEnd_empty, trimStart_head.
  - intros ->. reflexivity.
Qed.

Lemma trimStart_occurs (c : ascii) (s : string) :
  occurs c (JSStringOps.trimStart s) -> occurs c s.
Proof.
  unfold occurs. induction s as [|b s IH]; cbn; [tauto|].
  destruct (JSString.is_space b); cbn; auto.
Qed.

Lemma trimEnd_occurs (c : ascii) (s : string) :
  occurs c (JSStringOps.trimEnd s) -> occurs c s.
Proof.
  unfold occurs. induction s as [|b s IH]; cbn; [tauto|].
  destruct (JSString.is_space b && String.eqb (JSStringOps.trimEnd s) ""); cbn;
    [tauto | intuition].
Qed.

Lemma split_not_empty (sep : ascii) (s : string) : JSStringOps.split sep s <> [].
Proof.
  destruct s as [|c s]; cbn; [discriminate|].
  destruct (JSStringOps.split sep s); [discriminate|].
  destruct (Ascii.eqb c sep); discriminate.
Qed.

Lemma split_pieces (sep : ascii) (s piece : string) :
  In piece (JSStringOps.split sep s) -> ~ occurs sep piece.
Proof.
  unfold occurs. revert piece. induction s as [|c s IH]; intros piece; cbn.
  - intros [<-|[]]. cbn. tauto.
  - destruct (JSStringOps.split sep s) as [|w ws] eqn:E.
    + now apply split_not_empty in E.
    + destruct (Ascii.eqb_spec c sep) as [->|Hne].
      * intros [<-|H]; [cbn; tauto | now apply IH].
      * intros [<-|H]; [|apply IH; now right].
        cbn. intros [E'|H']; [contradiction|]. now apply (IH w (or_introl eq_refl)).
Qed.

Lemma startsWith_substring (s p : string) :
  JSString.startsWith s p = true ->
  s = (p ++ JSStringOps.substring (String.length p) s)%string.
Proof.
  revert s. induction p as [|a p IH]; intro s; cbn.
  - now destruct s.
  - destruct s as [|b s]; [discriminate|]. cbn. intro H.
    apply andb_prop in H as [Hab H]. apply Ascii.eqb_eq in Hab. subst b.
    f_equal. now apply IH.
Qed.

Lemma ends_with_space_app (p q : string) :
  q <> EmptyString -> ends_with_space (p ++ q)%string = ends_with_space q.
Proof.
  intro Hq. induction p as [|a p IH]; [reflexivity|].
  cbn [append ends_with_space]. rewrite IH.
  destruct (p ++ q)%string eqn:E; [|reflexivity].
  destruct p; cbn in E; [contradiction | discriminate].
Qed.

End TrimFacts.

(* ------------------------------------------------------------------ *)
(** ** The command loop *)

Section CommandFacts.

(** X10.  Whatever line is entered, the command loop calls the search only
    with a query that is not empty and does not end in white space: the
    line is trimmed first, so after the prefix [search ] something other
    than white space is left. *)
Theorem dispatch_search_query (input query : string) :
  App.dispatch input = App.Search query ->
  JSStringOps.trim input = ("search " ++ query)%string /\
  query <> EmptyString /\
  ends_with_space query = false.
Proof.
  unfold App.dispatch. cbv zeta.
  pose proof (trimEnd_end (JSStringOps.trimStart input)) as Hend.
  fold (JSStringOps.trim input) in Hend.
  destruct (String.eqb (JSStringOps.trim input) ""); [discriminate|].
  destruct (_ || _); [discriminate|].
  repeat (match goal with
          | |- (if String.eqb ?a ?b then _ else _) = _ -> _ =>
              destruct (String.eqb a b); [discriminate|]
          end).
  destruct (JSString.startsWith (JSStringOps.trim input) "search ") eqn:E;
    [|discriminate].
  intros [= <-]. apply startsWith_substring in E.
  change (String.length "search ") with 7 in E.
  assert (Hq : JSStringOps.substring 7 (JSStringOps.trim input) <> "").
  { intro Hq. rewrite Hq in E. rewrite E in Hend. discriminate Hend. }
  repeat split; auto.
  rewrite E in Hend at 1. now rewrite ends_with_space_app in Hend.
Qed.

Lemma dispatch_search_query_witness :
  JSStringOps.trim "  search  vector index  " = ("search " ++ " vector index")%string /\
  " vector index" <> EmptyString /\
  ends_with_space " vector index" = false.
Proof.
  apply (dispatch_search_query "  search  vector index  " " vector index").
  reflexivity.
Defined.

(** X11.  The command loop does nothing but prompt again exactly on the
    lines that consist of white space only (the empty line among them). *)
Theorem dispatch_prompt_iff_blank (input : string) :
  App.dispatch input = App.Prompt <-> blank input = true.
Proof.
  rewrite <- trim_blank. unfold App.dispatch. cbv zeta.
  destruct (String.eqb_spec (JSStringOps.trim input) "") as [->|Hne].
  - tauto.
  - split; [|contradiction].
    destruct (_ || _); [discriminate|].
    repeat (match goal with
            | |- (if String.eqb ?a ?b then _ else _) = _ -> _ =>
                destruct (String.eqb a b); [discriminate|]
            end).
    destruct (JSString.startsWith _ _); discriminate.
Qed.

(** X12.  Every tag the application passes to [addDocument] is non-empty,
    has no white space at either end and holds no comma. *)
Theorem tags_of_input_clean (tagsInput tag : string) :
  In tag (App.tags_of_input tagsInput) ->
  tag <> EmptyString /\
  JSString.head_is JSString.is_space tag = false /\
  ends_with_space tag = false /\
  ~ occurs ","%char tag.
Proof.
  unfold App.tags_of_input. intro H.
  apply filter_In in H as [H Hne]. apply in_map_iff in H as [piece [<- Hpiece]].
  split; [|split; [|split]].
  - intro E. rewrite E in Hne. discriminate.
  - apply trimEnd_head, trimStart_head.
  - apply trimEnd_end.
  - intro Hc. apply trimEnd_occurs, trimStart_occurs in Hc.
    now apply (split_pieces _ _ _ Hpiece).
Qed.

Lemma tags_of_input_clean_witness :
  "vector db" <> EmptyString /\
  JSString.head_is JSString.is_space "vector db" = false /\
  ends_with_space "vector db" = false /\
  ~ occurs ","%char "vector db".
Proof.
  apply (tags_of_input_clean " rag , vector db ,, " "vector db").
  vm_compute. right. left. reflexivity.
Defined.

End CommandFacts.

(* ------------------------------------------------------------------ *)
(** ** Ingestion: [saveEmbedding], [addDocument], [getDocument] *)

Section IngestionFacts.

Lemma Map_set_length {V : Type} (m : JSMap.t V) (k : string) (v : V) :
  length (JSMap.set m k v) = if JSMap.has m k then length m else S (length m).
Proof.
  unfold JSMap.set. destruct (JSMap.has m k).
  - rewrite <- (length_map fst (JSObject.replace k v m)).
    change (map fst (JSObject.replace k v m)) with (JSObject.keys (JSObject.replace k v m)).
    rewrite replace_keys. apply length_map.
  - rewrite length_app. simpl. lia.
Qed.

Lemma Map_set_keys {V : Type} (m : JSMap.t V) (k : string) (v : V) :
  JSObject.keys (JSMap.set m k v) =
  if JSMap.has m k then JSObject.keys m else JSObject.keys m ++ [k].
Proof.
  unfold JSMap.set. destruct (JSMap.has m k).
  - apply replace_keys.
  - unfold JSObject.keys. now rewrite map_app.
Qed.

(** X13.  After [saveEmbedding(docId, text)] the Vector Table holds the
    vector of [text] under [docId] and what it held before under every other
    id; an id that already had a vector keeps its place and the table its
    size, a new id is added at the end. *)
Theorem saveEmbedding_lookup (e : embeddings) (docId text : string) :
  (forall i, JSMap.get (saveEmbedding e docId text) i =
             if String.eqb docId i then Some (vectorize text) else JSMap.get e i) /\
  JSObject.keys (saveEmbedding e docId text) =
    (if JSMap.has e docId then JSObject.keys e else JSObject.keys e ++ [docId]) /\
  length (saveEmbedding e docId text) =
    (if JSMap.has e docId then length e else S (length e)).
Proof.
  unfold saveEmbedding. split; [|split].
  - intro i. apply Map_get_set.
  - apply Map_set_keys.
  - apply Map_set_length.
Qed.

Lemma getDocument_app (kb : knowledge_base) (d : document) (i : string) :
  find (fun d => String.eqb (id d) i) (documents kb ++ [d]) =
  match KnowledgeBase.getDocument kb i with
  | Some old => Some old
  | None => if String.eqb (id d) i then Some d else None
  end.
Proof.
  unfold KnowledgeBase.getDocument. induction (documents kb) as [|x l IH]; cbn.
  - now destruct (String.eqb (id d) i).
  - destruct (String.eqb (id x) i); [reflexivity | exact IH].
Qed.

Lemma getDocument_None (kb : knowledge_base) (i : string) :
  KnowledgeBase.getDocument kb i = None <-> ~ In i (map id (documents kb)).
Proof.
  unfold KnowledgeBase.getDocument. split.
  - intros H Hin. apply find_by_id_Some in Hin as [d Hd]. congruence.
  - intro H. apply find_by_id_None. intros d Hd E. apply H.
    rewrite <- E. now apply in_map.
Qed.

Lemma new_document_id L new_id now title content category tags metadata :
  id (KnowledgeBase.new_document L new_id now title content category tags metadata)
  = new_id.
Proof. reflexivity. Qed.

(** X14.  When the identifier generated for a new document is not yet in
    the corpus, [addDocument] returns it, [getDocument] of it then yields the
    new document with the title, content, category and tags passed in,
    [getDocument] of every other id yields what it did before, the Vector
    Table holds the vector of the title, a space and the content under the new
    id, and a well-formed state stays well-formed. *)
Theorem addDocument_round_trip (L : labels) (new_id now : string)
        (kb : knowledge_base) (title content category : string)
        (tags : list string) (metadata : JSObject.object string) :
  ~ In new_id (map id (documents kb)) ->
  let (kb', returned) :=
    KnowledgeBase.addDocument L new_id now kb title content category tags metadata in
  returned = new_id /\
  (exists d, KnowledgeBase.getDocument kb' new_id = Some d /\
             AdvancedKnowledgeBase.title d = title /\
             AdvancedKnowledgeBase.content d = content /\
             AdvancedKnowledgeBase.category d = category /\
             AdvancedKnowledgeBase.tags d = tags) /\
  (forall i, i <> new_id ->
             KnowledgeBase.getDocument kb' i = KnowledgeBase.getDocument kb i) /\
  JSMap.get (vectorStore kb') new_id = Some (vectorize (title ++ " " ++ content)) /\
  length (documents kb') = S (length (documents kb)) /\
  (well_formed kb -> well_formed kb').
Proof.
  intro Hfresh. unfold KnowledgeBase.addDocument. cbv zeta.
  rewrite !new_document_id.
  split; [reflexivity|]. split; [|split; [|split; [|split]]].
  - eexists. split.
    + unfold KnowledgeBase.getDocument. cbn [documents]. rewrite getDocument_app.
      apply getDocument_None in Hfresh. rewrite Hfresh, new_document_id.
      rewrite String.eqb_refl. reflexivity.
    + cbn. auto.
  - intros i Hi. unfold KnowledgeBase.getDocument at 1. cbn [documents].
    rewrite getDocument_app. destruct (KnowledgeBase.getDocument kb i); [reflexivity|].
    rewrite new_document_id.
    destruct (String.eqb_spec new_id i); [congruence | reflexivity].
  - cbn [vectorStore]. unfold saveEmbedding. rewrite Map_get_set.
    now rewrite String.eqb_refl.
  - cbn [documents]. rewrite length_app. simpl. lia.
  - intros [Hnd Hkeys]. unfold well_formed. cbn [documents vectorStore].
    rewrite map_app. cbn [map]. rewrite new_document_id.
    assert (Hhas : JSMap.has (vectorStore kb) new_id = false).
    { destruct (JSMap.has (vectorStore kb) new_id) eqn:E; [|reflexivity].
      apply has_true in E. rewrite Hkeys in E. contradiction. }
    split.
    + apply NoDup_app; auto.
      * repeat constructor. simpl. tauto.
      * intros x Hx [<-|[]]. contradiction.
    + unfold saveEmbedding. rewrite Map_set_keys, Hhas, Hkeys. reflexivity.
Qed.

Lemma addDocument_round_trip_witness :
  let L := {| label_user := "user"; label_unknown := "unknown"; label_other := "other" |} in
  let (kb', returned) :=
    KnowledgeBase.addDocument L "C" "2024-01-02" Corpus.kb "Gamma" "gamma rays" "physics"
                              ["gamma"] [] in
  returned = "C" /\
  KnowledgeBase.getDocument kb' "A" = KnowledgeBase.getDocument Corpus.kb "A" /\
  length (documents kb') = 3.
Proof.
  cbv zeta.
  pose proof (addDocument_round_trip
                {| label_user := "user"; label_unknown := "unknown"; label_other := "other" |}
                "C" "2024-01-02" Corpus.kb "Gamma" "gamma rays" "physics" ["gamma"] []) as H.
  destruct (KnowledgeBase.addDocument _ "C" "2024-01-02" Corpus.kb "Gamma" "gamma rays"
                                      "physics" ["gamma"] []) as [kb' returned].
  destruct H as [H1 [_ [H3 [_ [H5 _]]]]].
  - vm_compute. intros [E|[E|[]]]; discriminate E.
  - split; [exact H1|]. split; [|exact H5].
    apply H3. discriminate.
Defined.

(** X15.  When the identifier passed for a new document is already the id
    of a document, [getDocument] of it keeps yielding the earlier document,
    while the vector under that id is replaced by the vector of the new text:
    document and vector no longer belong together. *)
Theorem addDocument_id_in_use (L : labels) (new_id now : string)
        (kb : knowledge_base) (title content category : string)
        (tags : list string) (metadata : JSObject.object string) (old : document) :
  KnowledgeBase.getDocument kb new_id = Some old ->
  let kb' :=
    fst (KnowledgeBase.addDocument L new_id now kb title content category tags metadata) in
  KnowledgeBase.getDocument kb' new_id = Some old /\
  JSMap.get (vectorStore kb') new_id = Some (vectorize (title ++ " " ++ content)) /\
  length (documents kb') = S (length (documents kb)).
Proof.
  intro Hold. cbv zeta. unfold KnowledgeBase.addDocument. cbv zeta. cbn [fst].
  split; [|split].
  - unfold KnowledgeBase.getDocument at 1. cbn [documents].
    now rewrite getDocument_app, Hold.
  - cbn [vectorStore]. rewrite new_document_id. unfold saveEmbedding.
    rewrite Map_get_set. now rewrite String.eqb_refl.
  - cbn [documents]. rewrite length_app. simpl. lia.
Qed.

Lemma addDocument_id_in_use_witness :
  let L := {| label_user := "user"; label_unknown := "unknown"; label_other := "other" |} in
  let kb' :=
    fst (KnowledgeBase.addDocument L "A" "2024-01-02" Corpus.kb "Gamma" "gamma rays"
                                   "physics" [] []) in
  KnowledgeBase.getDocument kb' "A" = Some Corpus.DocA /\
  JSMap.get (vectorStore kb') "A" = Some (vectorize ("Gamma" ++ " " ++ "gamma rays")) /\
  length (documents kb') = S (length (documents Corpus.kb)).
Proof.
  cbv zeta.
  apply (addDocument_id_in_use
           {| label_user := "user"; label_unknown := "unknown"; label_other := "other" |}
           "A" "2024-01-02" Corpus.kb "Gamma" "gamma rays" "physics" [] [] Corpus.DocA).
  reflexivity.
Defined.

Lemma spread_get {V : Type} (source target : JSObject.object V) (k : string) :
  NoDup (JSObject.keys source) ->
  JSObject.get (KnowledgeBase.spread target source) k =
  match JSObject.get source k with
  | Some v => Some v
  | None => JSObject.get target k
  end.
Proof.
  unfold KnowledgeBase.spread. revert target.
  induction source as [|[k0 v0] source IH]; intros target Hnd; [reflexivity|].
  cbn [fold_left fst snd JSObject.get].
  inversion Hnd as [|? ? Hout Hnd']; subst.
  rewrite (IH _ Hnd'), get_set.
  destruct (String.eqb_spec k0 k) as [<-|_]; [|reflexivity].
  apply get_None_keys in Hout. now rewrite Hout.
Qed.

(** X16.  In the document [addDocument] builds, every property of the
    metadata passed in has the value passed in, and [author], [difficulty]
    and [readTime] have their default whenever the metadata passed in does
    not give them; there is no other property. *)
Theorem addDocument_metadata (L : labels) (new_id now : string)
        (title content category : string) (tags : list string)
        (metadata : JSObject.object string) (k : string) :
  NoDup (JSObject.keys metadata) ->
  JSObject.get
    (AdvancedKnowledgeBase.metadata
       (KnowledgeBase.new_document L new_id now title content category tags metadata)) k =
  match JSObject.get metadata k with
  | Some v => Some v
  | None =>
      if String.eqb k "author" then Some (label_user L)
      else if String.eqb k "difficulty" then Some (label_unknown L)
      else if String.eqb k "readTime" then Some (label_unknown L)
      else None
  end.
Proof.
  intro Hnd. cbn [AdvancedKnowledgeBase.metadata KnowledgeBase.new_document].
  rewrite (spread_get _ _ _ Hnd). destruct (JSObject.get metadata k); [reflexivity|].
  cbn [JSObject.get]. rewrite !(String.eqb_sym _ k). reflexivity.
Qed.

Lemma addDocument_metadata_witness :
  let L := {| label_user := "user"; label_unknown := "unknown"; label_other := "other" |} in
  JSObject.get
    (AdvancedKnowledgeBase.metadata
       (KnowledgeBase.new_document L "C" "2024-01-02" "Gamma" "gamma rays" "physics" []
                                   [("difficulty", "hard")])) "difficulty" = Some "hard".
Proof.
  cbv zeta.
  refine (addDocument_metadata _ "C" "2024-01-02" "Gamma" "gamma rays" "physics" []
                               [("difficulty", "hard")] "difficulty" _).
  repeat constructor. simpl. tauto.
Defined.

End IngestionFacts.

(* ------------------------------------------------------------------ *)
(** ** Statistics: [getStats] *)

Section StatsFacts.

Lemma append_assoc (a b c : string) : ((a ++ b) ++ c = a ++ (b ++ c))%string.
Proof. induction a as [|x a IH]; cbn; [reflexivity | now rewrite IH]. Qed.

Lemma ones_snoc (n : nat) : (ones n ++ "1" = ones (S n))%string.
Proof. induction n as [|n IH]; cbn; [reflexivity|]. cbn in IH. now rewrite IH. Qed.

Lemma inherited_prototype (k : string) :
  Prototype.inherited k = Some Prototype.ThePrototype <-> k = "__proto__".
Proof.
  unfold Prototype.inherited.
  destruct (String.eqb_spec k "constructor") as [->|_]; [split; discriminate|].
  destruct (String.eqb_spec k "__proto__") as [->|Hne]; [tauto|].
  destruct (existsb _ _); split; try discriminate; contradiction.
Qed.

Lemma function_text_not_empty (name rest : string) :
  String.eqb (Prototype.function_text name ++ rest) EmptyString = false.
Proof. reflexivity. Qed.

Lemma count_key_tallied (p : list string) (o : JSObject.object count) (x : string) :
  (forall k, JSObject.get o k = tallied p k) ->
  forall k, JSObject.get (Prototype.count_key o x) k = tallied (p ++ [x]) k.
Proof.
  intros Ho k. unfold Prototype.count_key, JSObject.assign.
  assert (Hcount : count_occ string_dec (p ++ [x]) k =
                   count_occ string_dec p k + (if String.eqb x k then 1 else 0)).
  { rewrite count_occ_app. cbn [count_occ].
    destruct (string_dec x k) as [->|Hne].
    - now rewrite String.eqb_refl.
    - destruct (String.eqb_spec x k); [contradiction | reflexivity]. }
  destruct (String.eqb_spec x "__proto__") as [->|Hx].
  - (* the assignment is ignored *)
    rewrite Ho. unfold tallied. rewrite Hcount.
    destruct (String.eqb_spec "__proto__" k) as [E|_].
    + subst k. destruct (count_occ string_dec p "__proto__"); reflexivity.
    + now rewrite Nat.add_0_r.
  - rewrite get_set. destruct (String.eqb_spec x k) as [E|Hne].
    + subst k. unfold Prototype.or_zero_plus_one. rewrite Ho. unfold tallied. rewrite Hcount.
      destruct (count_occ string_dec p x) as [|n].
      * cbn [Nat.add]. destruct (Prototype.inherited x) as [[name|]|] eqn:Hi;
          try reflexivity.
        apply inherited_prototype in Hi. contradiction.
      * replace (S n + 1) with (S (S n)) by lia.
        destruct (Prototype.inherited x) as [[name|]|] eqn:Hi.
        -- rewrite function_text_not_empty, append_assoc, ones_snoc. reflexivity.
        -- apply inherited_prototype in Hi. contradiction.
        -- do 2 f_equal. lia.
    + rewrite Ho. unfold tallied. rewrite Hcount.
      destruct (String.eqb_spec x k); [contradiction|]. now rewrite Nat.add_0_r.
Qed.

Lemma count_keys_tallied (l p : list string) (o : JSObject.object count) :
  (forall k, JSObject.get o k = tallied p k) ->
  forall k, JSObject.get (fold_left Prototype.count_key l o) k = tallied (p ++ l) k.
Proof.
  revert p o. induction l as [|x l IH]; intros p o Ho k; cbn [fold_left].
  - rewrite app_nil_r. apply Ho.
  - replace (p ++ x :: l) with ((p ++ [x]) ++ l) by (now rewrite <- app_assoc).
    apply IH. now apply count_key_tallied.
Qed.

Lemma tally_loop (L : labels) (docs : list document)
      (a b : JSObject.object count) :
  fold_left (KnowledgeBase.tally L) docs (a, b) =
  (fold_left Prototype.count_key (map category docs) a,
   fold_left Prototype.count_key (map (KnowledgeBase.difficulty_of L) docs) b).
Proof.
  revert a b. induction docs as [|d docs IH]; intros a b; [reflexivity|].
  cbn [fold_left map]. unfold KnowledgeBase.tally at 2. cbn [fst snd]. apply IH.
Qed.

Lemma getStats_counts_aux (L : labels) (kb : knowledge_base) :
  KnowledgeBase.totalDocuments (KnowledgeBase.getStats L kb) = length (documents kb) /\
  KnowledgeBase.vectorizedDocs (KnowledgeBase.getStats L kb) = length (vectorStore kb) /\
  (forall c, JSObject.get (KnowledgeBase.categories (KnowledgeBase.getStats L kb)) c =
             tallied (map category (documents kb)) c) /\
  (forall c, JSObject.get (KnowledgeBase.difficulties (KnowledgeBase.getStats L kb)) c =
             tallied (map (KnowledgeBase.difficulty_of L) (documents kb)) c).
Proof.
  unfold KnowledgeBase.getStats. cbv zeta.
  cbn [KnowledgeBase.totalDocuments KnowledgeBase.vectorizedDocs
       KnowledgeBase.categories KnowledgeBase.difficulties].
  rewrite tally_loop. cbn [fst snd].
  repeat split; intro c;
    apply (count_keys_tallied _ [] []); intro k; reflexivity.
Qed.

(** X17.  [getStats] reports the number of documents and the size of the
    Vector Table, and under each key of [categories] and [difficulties] what
    the tally of an object literal comes to: for a category (or difficulty)
    that names no property of [Object.prototype], the number of documents
    that have it; for one that names a function of [Object.prototype] (such
    as [constructor] or [toString]), not a number but the text of that
    function followed by one [1] per document; and for [__proto__] no entry at
    all.  Categories and difficulties no document has are absent. *)
Theorem getStats_tallies (L : labels) (kb : knowledge_base) :
  let s := KnowledgeBase.getStats L kb in
  KnowledgeBase.totalDocuments s = length (documents kb) /\
  KnowledgeBase.vectorizedDocs s = length (vectorStore kb) /\
  (forall c, JSObject.get (KnowledgeBase.categories s) c =
             tallied (map category (documents kb)) c) /\
  (forall c, JSObject.get (KnowledgeBase.difficulties s) c =
             tallied (map (KnowledgeBase.difficulty_of L) (documents kb)) c).
Proof. cbv zeta. apply getStats_counts_aux. Qed.

(** X18.  In a well-formed state, whose ordinary categories name no
    property of [Object.prototype], [getStats] reports as many vectorized
    documents as documents, and under each category present the number of
    documents of that category, which is at least 1 and at most the number
    of documents. *)
Theorem getStats_well_formed (L : labels) (kb : knowledge_base) (c : string) :
  well_formed kb ->
  Prototype.inherited c = None ->
  In c (map category (documents kb)) ->
  let s := KnowledgeBase.getStats L kb in
  KnowledgeBase.vectorizedDocs s = KnowledgeBase.totalDocuments s /\
  exists n,
    JSObject.get (KnowledgeBase.categories s) c = Some (Num n) /\
    n = count_occ string_dec (map category (documents kb)) c /\
    1 <= n <= KnowledgeBase.totalDocuments s.
Proof.
  intros [_ Hkeys] Hc Hin. cbv zeta.
  destruct (getStats_counts_aux L kb) as [Htotal [Hvec [Hcat _]]].
  split.
  - rewrite Hvec, Htotal. rewrite <- (length_map fst (vectorStore kb)).
    change (map fst (vectorStore kb)) with (JSObject.keys (vectorStore kb)).
    rewrite Hkeys. apply length_map.
  - exists (count_occ string_dec (map category (documents kb)) c).
    apply (count_occ_In string_dec) in Hin.
    split; [|split; [reflexivity|split; [lia|]]].
    + rewrite Hcat. unfold tallied. rewrite Hc.
      destruct (count_occ string_dec (map category (documents kb)) c); [lia | reflexivity].
    + rewrite Htotal. rewrite <- (length_map category (documents kb)).
      apply count_occ_bound.
Qed.

End StatsFacts.

Lemma getStats_well_formed_witness :
  let L := {| label_user := "user"; label_unknown := "unknown"; label_other := "other" |} in
  let s := KnowledgeBase.getStats L Corpus.kb in
  KnowledgeBase.vectorizedDocs s = KnowledgeBase.totalDocuments s /\
  exists n,
    JSObject.get (KnowledgeBase.categories s) "general" = Some (Num n) /\
    n = count_occ string_dec (map category (documents Corpus.kb)) "general" /\
    1 <= n <= KnowledgeBase.totalDocuments s.
Proof.
  cbv zeta.
  apply (getStats_well_formed
           {| label_user := "user"; label_unknown := "unknown"; label_other := "other" |}
           Corpus.kb "general").
  - split; [|reflexivity]. vm_compute.
    repeat constructor; simpl; intuition discriminate.
  - reflexivity.
  - vm_compute. left. reflexivity.
Defined.

(* ------------------------------------------------------------------ *)
(** ** Small corpora: [hybridRetrieval] returns every document *)

Section SmallCorpus.

Lemma Map_set_keeps {V : Type} (m : JSMap.t V) (k k' : string) (v : V) :
  In k' (JSObject.keys m) \/ k' = k -> In k' (JSObject.keys (JSMap.set m k v)).
Proof.
  rewrite Map_set_keys. destruct (JSMap.has m k) eqn:E.
  - intros [H| ->]; [exact H | now apply has_true].
  - intros [H| ->]; apply in_or_app; [now left | right; now left].
Qed.

Lemma add_vector_keeps docs m v k :
  In k (JSObject.keys m) -> In k (JSObject.keys (add_vector docs m v)).
Proof.
  intro H. unfold add_vector. destruct (find _ docs); [|exact H].
  apply Map_set_keeps. now left.
Qed.

Lemma add_vectors_keep docs V m k :
  In k (JSObject.keys m) -> In k (JSObject.keys (fold_left (add_vector docs) V m)).
Proof.
  revert m. induction V as [|v V IH]; intros m H; cbn [fold_left]; [exact H|].
  apply IH. now apply add_vector_keeps.
Qed.

Lemma add_vectors_add docs V m v d :
  In v V ->
  find (fun d => String.eqb (id d) (docId v)) docs = Some d ->
  In (id d) (JSObject.keys (fold_left (add_vector docs) V m)).
Proof.
  revert m. induction V as [|v0 V IH]; intros m Hin Hfind; [contradiction|].
  cbn [fold_left]. destruct Hin as [->|Hin]; [|now apply IH].
  apply add_vectors_keep. unfold add_vector. rewrite Hfind.
  apply Map_set_keeps. now right.
Qed.

Lemma slice0_all {A : Type} (n : nat) (l : list A) :
  length l <= n -> JSArray.slice0 n l = l.
Proof. apply firstn_all2. Qed.

(** In a state where ids are distinct and every document has a vector, a
    corpus of at most [2 * maxResults] documents is fused whole. *)
Lemma fuse_small_corpus (kb : knowledge_base) (query : string) (maxResults : nat)
      (K : list keyword_result) :
  NoDup (map id (documents kb)) ->
  vectorized kb ->
  length (documents kb) <= maxResults * 2 ->
  (forall k, In k K -> In (kr_doc k) (documents kb)) ->
  let m := fuse (documents kb) K
             (vectorSearch (vectorStore kb) query (map id (documents kb)) (maxResults * 2)) in
  keyed (documents kb) m /\
  Permutation (JSObject.keys m) (map id (documents kb)).
Proof.
  intros Hnd Hvec Hlen HK. cbv zeta.
  assert (Hkeyed := keyed_fuse (documents kb) K
                      (vectorSearch (vectorStore kb) query (map id (documents kb))
                                    (maxResults * 2)) HK).
  split; [exact Hkeyed|].
  destruct Hkeyed as [Hkeys Hm].
  apply NoDup_Permutation; auto.
  intro i. split.
  - intro Hi. apply in_map_iff in Hi as [[k r] [E Hin]]. simpl in E. subst k.
    destruct (Hm _ _ Hin) as [<- Hd]. now apply in_map.
  - intro Hi.
    destruct (vectorSearch_ids (vectorStore kb) query (map id (documents kb))
                               (maxResults * 2)) as [hits [Hp Hv]].
    rewrite filter_all in Hp.
    2:{ intros x Hx. apply in_map_iff in Hx as [d [<- Hd]]. now apply Hvec. }
    rewrite slice0_all in Hv.
    2:{ rewrite <- (length_map docId), (Permutation_length Hp), length_map. exact Hlen. }
    apply (Permutation_in _ (Permutation_sym Hp)) in Hi as Hhit.
    apply in_map_iff in Hhit as [v [Ev Hv']].
    destruct (find_by_id_Some (documents kb) i Hi) as [d Hd].
    destruct (find_by_id _ _ _ Hd) as [_ Hid].
    rewrite <- Hid. unfold fuse. rewrite Hv.
    apply (add_vectors_add _ _ _ v d); [exact Hv' | now rewrite Ev].
Qed.

(** X19.  In a state where document ids are distinct and every document has
    a vector, a corpus of at most [2 * maxResults] documents is never
    filtered: whatever the query and the engine, a list [hybridRetrieval]
    returns has
    [min maxResults (number of documents)] entries, and with at most
    [maxResults] documents it holds every document of the corpus exactly
    once, those that match nothing included (with [combinedScore] 0). *)
Theorem hybridRetrieval_small_corpus {RX : RegExp.engine} (kb : knowledge_base)
        (query : string) (maxResults : nat) (out : list combined_result) :
  NoDup (map id (documents kb)) ->
  vectorized kb ->
  length (documents kb) <= maxResults * 2 ->
  hybridRetrieval kb query maxResults = Returns out ->
  length out = Nat.min maxResults (length (documents kb)) /\
  (length (documents kb) <= maxResults -> Permutation (map doc out) (documents kb)).
Proof.
  intros Hnd Hvec Hlen H.
  apply hybridRetrieval_Returns in H as [K [HK ->]].
  destruct (fuse_small_corpus kb query maxResults K Hnd Hvec Hlen) as [Hkeyed Hperm].
  { intros k Hk. now apply (keywordSearch_results _ _ _ _ _ HK). }
  set (m := fuse (documents kb) K
              (vectorSearch (vectorStore kb) query (map id (documents kb))
                            (maxResults * 2))) in *.
  assert (Hsize : length (JSMap.values m) = length (documents kb)).
  { unfold JSMap.values. rewrite length_map.
    rewrite <- (length_map fst m). change (map fst m) with (JSObject.keys m).
    rewrite (Permutation_length Hperm). apply length_map. }
  split.
  - now rewrite slice0_length, sort_length, Hsize.
  - intro Hsmall. rewrite slice0_all by (rewrite sort_length, Hsize; exact Hsmall).
    eapply perm_trans; [apply Permutation_map, sort_perm|].
    apply NoDup_Permutation_bis.
    + apply (NoDup_map_inv id). rewrite map_map.
      rewrite (keyed_ids _ _ Hkeyed). apply Hkeyed.
    + rewrite length_map, Hsize. lia.
    + intros d Hd. apply in_map_iff in Hd as [r [<- Hr]].
      apply Map_values_get in Hr as [k Hin]. now apply (proj2 Hkeyed) in Hin.
Qed.

Lemma hybridRetrieval_small_corpus_witness :
  exists out,
    hybridRetrieval Corpus.kb "quantum" 5 = Returns out /\
    length out = Nat.min 5 (length (documents Corpus.kb)) /\
    Permutation (map doc out) (documents Corpus.kb).
Proof.
  assert (Hnd : NoDup (map id (documents Corpus.kb))).
  { vm_compute. repeat constructor; simpl; intuition discriminate. }
  assert (Hvec : vectorized Corpus.kb).
  { intros d [<-|[<-|[]]]; reflexivity. }
  assert (Hlen : length (documents Corpus.kb) <= 5 * 2) by (vm_compute; lia).
  destruct (hybridRetrieval_small_corpus (RX := RegExp.fragment)
              Corpus.kb "quantum" 5 _ Hnd Hvec Hlen eq_refl)
    as [H1 H2].
  eexists. split; [reflexivity|]. split; [exact H1|].
  apply H2. vm_compute. lia.
Defined.

End SmallCorpus.

(* ------------------------------------------------------------------ *)
(** ** The agent: the fallback intent and the retrieval strategies *)

Section AgentFacts.

Lemma lower_space (c : ascii) :
  JSString.is_space (JSString.lower c) = JSString.is_space c.
Proof. destruct c as [[] [] [] [] [] [] [] []]; reflexivity. Qed.

Lemma toLowerCase_length (s : string) :
  String.length (JSString.toLowerCase s) = String.length s.
Proof. induction s as [|c s IH]; cbn; [reflexivity | now rewrite IH]. Qed.

Lemma toLowerCase_head_space (s : string) :
  JSString.head_is JSString.is_space (JSString.toLowerCase s) =
  JSString.head_is JSString.is_space s.
Proof. destruct s as [|c s]; cbn; [reflexivity | apply lower_space]. Qed.

(** Case folding and splitting at white space commute. *)
Lemma split_spaces_toLowerCase (s : string) :
  JSString.split_spaces (JSString.toLowerCase s) =
  map JSString.toLowerCase (JSString.split_spaces s).
Proof.
  induction s as [|c s IH]; [reflexivity|].
  cbn [JSString.toLowerCase JSString.split_spaces].
  rewrite IH, lower_space, toLowerCase_head_space.
  destruct (JSString.split_spaces s) as [|w ws]; [reflexivity|].
  cbn [map]. destruct (JSString.is_space c); [|reflexivity].
  destruct (JSString.head_is JSString.is_space s); reflexivity.
Qed.

Lemma split_spaces_pieces (s piece : string) (c : ascii) :
  In piece (JSString.split_spaces s) -> occurs c piece -> JSString.is_space c = false.
Proof.
  unfold occurs. revert piece. induction s as [|b s IH]; intros piece; cbn.
  - intros [<-|[]] [].
  - destruct (JSString.split_spaces s) as [|w ws] eqn:E.
    + destruct s; cbn in E; [discriminate|].
      destruct (JSString.split_spaces s); destruct (JSString.is_space _);
        try destruct (JSString.head_is _ _); discriminate.
    + destruct (JSString.is_space b) eqn:Hb.
      * destruct (JSString.head_is JSString.is_space s).
        -- apply IH.
        -- intros [<-|H]; [intros [] | now apply IH].
      * intros [<-|H]; [|apply IH; now right].
        cbn. intros [<-|Hc]; [exact Hb|]. now apply (IH w (or_introl eq_refl)).
Qed.

(** X20.  For a query whose code units are all below 256 (the strings of
    this development, on which [toLowerCase] maps code unit to code unit),
    and for every engine.  When the model call gives no intent, the keywords
    of the intent [analyzeIntent] falls back to are the query's words longer
    than two characters; none holds white space; case-folded, they are
    exactly the words from which [keywordSearch] builds a regular
    expression; and on a corpus with a document [executeRetrievalStrategy]
    returns under that intent exactly when the engine builds a regular
    expression from each case-folded keyword. *)
Theorem fallback_intent {RX : RegExp.engine} (L : labels) (kb : knowledge_base)
        (query : string) :
  let i := Agent.analyzeIntent L None query in
  (forall word, In word (Agent.keywords i) ->
     2 < String.length word /\
     forall c, occurs c word -> JSString.is_space c = false) /\
  map JSString.toLowerCase (Agent.keywords i) =
    filter (fun word => 2 <? String.length word)
           (JSString.split_spaces (JSString.toLowerCase query)) /\
  (documents kb <> [] ->
   ((exists out, Agent.executeRetrievalStrategy kb query i = Returns out) <->
    forall word, In word (Agent.keywords i) ->
                 exists re, RegExp.construct (JSString.toLowerCase word) = Returns re)).
Proof.
  cbv zeta. cbn [Agent.analyzeIntent Agent.default_intent Agent.keywords].
  assert (Hfold :
            map JSString.toLowerCase
                (filter (fun word => 2 <? String.length word)
                        (JSString.split_spaces query)) =
            filter (fun word => 2 <? String.length word)
                   (JSString.split_spaces (JSString.toLowerCase query))).
  { rewrite split_spaces_toLowerCase.
    induction (JSString.split_spaces query) as [|w ws IH]; [reflexivity|].
    cbn [filter map]. rewrite toLowerCase_length.
    destruct (2 <? String.length w); cbn [map]; now rewrite IH. }
  split; [|split].
  - intros word Hw. apply filter_In in Hw as [Hin Hlen]. split.
    + now apply Nat.ltb_lt.
    + intros c Hc. now apply (split_spaces_pieces query word c).
  - exact Hfold.
  - intro Hdocs.
    assert (Hexec :
              (exists out,
                  Agent.executeRetrievalStrategy kb query
                    (Agent.default_intent L query) = Returns out) <->
              (exists out, hybridRetrieval kb query 5 = Returns out)).
    { unfold Agent.executeRetrievalStrategy. cbn [Agent.retrievalStrategy Agent.default_intent].
      change (String.eqb "hybrid" "keyword") with false.
      change (String.eqb "hybrid" "vector") with false. cbv iota.
      split.
      - intros [out H]. apply bind_Returns in H as [F [HF _]]. now exists F.
      - intros [F ->]. cbn [bind]. now eexists. }
    rewrite Hexec, (hybridRetrieval_returns_iff kb query 5 Hdocs).
    unfold builds. split.
    + intros Hb word Hw. apply (in_map JSString.toLowerCase) in Hw.
      rewrite Hfold in Hw. apply filter_In in Hw as [Hin Hlen].
      apply Hb; [exact Hin | now apply Nat.ltb_lt].
    + intros Hk word Hin Hlen.
      assert (Hw : In word (map JSString.toLowerCase
                              (filter (fun word => 2 <? String.length word)
                                      (JSString.split_spaces query)))).
      { rewrite Hfold. apply filter_In. split; [exact Hin | now apply Nat.ltb_lt]. }
      apply in_map_iff in Hw as [w [<- Hw]]. now apply Hk.
Qed.

Lemma fallback_intent_witness :
  let L := {| label_user := "user"; label_unknown := "unknown"; label_other := "other" |} in
  Agent.keywords (Agent.analyzeIntent L None "Alpha or Beta") = ["Alpha"; "Beta"] /\
  exists out,
    Agent.executeRetrievalStrategy Corpus.kb "Alpha or Beta"
      (Agent.analyzeIntent L None "Alpha or Beta") = Returns out.
Proof.
  cbv zeta. split; [reflexivity|].
  destruct (fallback_intent (RX := RegExp.fragment)
              {| label_user := "user"; label_unknown := "unknown"; label_other := "other" |}
              Corpus.kb "Alpha or Beta") as [_ [_ H]].
  apply H; [discriminate|].
  intros word [<-|[<-|[]]]; eexists; vm_compute; reflexivity.
Defined.

(** X21.  With the strategy [vector], [executeRetrievalStrategy] returns
    for every query, also one on which the keyword search throws; it returns
    at most five entries, and each pairs a document of the corpus, the one
    [getDocument] finds under the id of a Vector Table entry, with the
    similarity of the query to that entry. *)
Theorem vector_strategy (kb : knowledge_base) (query : string) (i : Agent.intent) :
  Agent.retrievalStrategy i = "vector" ->
  exists out,
    Agent.executeRetrievalStrategy kb query i = Returns out /\
    length out <= 5 /\
    forall r, In r out ->
      exists d vec,
        r = Agent.ByVector (Some d) (cosineSimilarity (vectorize query) vec) /\
        In d (documents kb) /\
        KnowledgeBase.getDocument kb (id d) = Some d /\
        JSMap.get (vectorStore kb) (id d) = Some vec.
Proof.
  intro Hs. unfold Agent.executeRetrievalStrategy. rewrite Hs. cbn [String.eqb].
  change (String.eqb "vector" "keyword") with false.
  change (String.eqb "vector" "vector") with true. cbv iota zeta.
  eexists. split; [reflexivity|]. split.
  - rewrite length_map.
    destruct (vectorSearch_ids (vectorStore kb) query (map id (documents kb)) 5)
      as [hits [_ ->]].
    rewrite slice0_length. lia.
  - intros r Hr. apply in_map_iff in Hr as [v [<- Hv]].
    destruct (vectorSearch_In _ _ _ _ _ Hv) as [Hid _].
    destruct (find_by_id_Some (documents kb) _ Hid) as [d Hd].
    destruct (find_by_id _ _ _ Hd) as [Hin Hidd].
    unfold vectorSearch in Hv. apply slice0_In, sort_In in Hv.
    apply collect_hits in Hv as [[]|[_ [vec [Hget Hsim]]]].
    exists d, vec. unfold KnowledgeBase.getDocument.
    rewrite Hidd, Hd, Hsim. repeat split; auto.
Qed.

Lemma vector_strategy_witness :
  exists out,
    Agent.executeRetrievalStrategy Corpus.kb "c++"
      {| Agent.primaryIntent := "search"; Agent.secondaryIntents := [];
         Agent.entities := []; Agent.keywords := []; Agent.complexity := "simple";
         Agent.domain := "other"; Agent.needsRetrieval := true;
         Agent.retrievalStrategy := "vector"; Agent.responseStyle := "brief" |}
    = Returns out /\ length out <= 5.
Proof.
  destruct (vector_strategy Corpus.kb "c++"
              {| Agent.primaryIntent := "search"; Agent.secondaryIntents := [];
                 Agent.entities := []; Agent.keywords := []; Agent.complexity := "simple";
                 Agent.domain := "other"; Agent.needsRetrieval := true;
                 Agent.retrievalStrategy := "vector"; Agent.responseStyle := "brief" |}
              eq_refl) as [out [H1 [H2 _]]].
  exists out. split; [exact H1 | exact H2].
Defined.

End AgentFacts.

Lemma keywordSearch_length {RX : RegExp.engine} docs query maxResults results :
  keywordSearch docs query maxResults = Returns results ->
  length results <= maxResults.
Proof.
  unfold keywordSearch. intro H. apply bind_Returns in H as [found [_ H]].
  assert (E : results = JSArray.slice0 maxResults (JSArray.sort by_relevance found))
    by congruence.
  rewrite E, slice0_length. lia.
Qed.

(** X22.  Whatever the strategy and the engine, an array
    [executeRetrievalStrategy] returns has at most five entries; under [keyword] each is a document of the
    corpus with a positive relevance score, and under any name other than
    [keyword] and [vector] each is a fused entry of a document of the
    corpus. *)
Theorem executeRetrievalStrategy_results {RX : RegExp.engine} (kb : knowledge_base)
        (query : string) (i : Agent.intent) (out : list Agent.retrieved) :
  Agent.executeRetrievalStrategy kb query i = Returns out ->
  length out <= 5 /\
  (Agent.retrievalStrategy i = "keyword" ->
   forall r, In r out ->
     exists k, r = Agent.ByKeyword k /\ In (kr_doc k) (documents kb) /\
               0 < relevanceScore k) /\
  (Agent.retrievalStrategy i <> "keyword" -> Agent.retrievalStrategy i <> "vector" ->
   forall r, In r out ->
     exists e, r = Agent.ByFusion e /\ In (doc e) (documents kb)).
Proof.
  unfold Agent.executeRetrievalStrategy. intro H.
  destruct (String.eqb_spec (Agent.retrievalStrategy i) "keyword") as [Ek|Ek].
  - apply bind_Returns in H as [K [HK H]]. injection H as <-.
    split; [|split].
    + rewrite length_map. now apply (keywordSearch_length _ _ _ _ HK).
    + intros _ r Hr. apply in_map_iff in Hr as [k [<- Hk]].
      exists k. split; [reflexivity|].
      now apply (keywordSearch_results _ _ _ _ _ HK).
    + intros Hne. contradiction.
  - destruct (String.eqb_spec (Agent.retrievalStrategy i) "vector") as [Ev|Ev].
    + cbv zeta in H. injection H as <-. split; [|split].
      * rewrite length_map.
        destruct (vectorSearch_ids (vectorStore kb) query (map id (documents kb)) 5)
          as [hits [_ ->]].
        rewrite slice0_length. lia.
      * intro E. contradiction.
      * intros _ Hne. contradiction.
    + apply bind_Returns in H as [F [HF H]]. injection H as <-.
      split; [|split].
      * rewrite length_map.
        apply hybridRetrieval_Returns in HF as [K [_ ->]].
        rewrite slice0_length. lia.
      * intro E. contradiction.
      * intros _ _ r Hr. apply in_map_iff in Hr as [e [<- He]].
        exists e. split; [reflexivity|].
        destruct (hybridRetrieval_entry _ _ _ _ _ HF He) as [K [_ [Hkeyed Hget]]].
        apply get_In in Hget. now apply (proj2 Hkeyed) in Hget.
Qed.

Lemma executeRetrievalStrategy_results_witness :
  exists out,
    Agent.executeRetrievalStrategy Corpus.kb "beta"
      (Agent.default_intent
         {| label_user := "user"; label_unknown := "unknown"; label_other := "other" |}
         "beta") = Returns out /\
    length out <= 5.
Proof.
  destruct (executeRetrievalStrategy_results (RX := RegExp.fragment) Corpus.kb "beta"
              (Agent.default_intent
                 {| label_user := "user"; label_unknown := "unknown"; label_other := "other" |}
                 "beta") _ eq_refl) as [H _].
  eexists. split; [reflexivity | exact H].
Defined.
